(** * Masked numeric input fields: formatting, key filtering and validation

    A shallow embedding of the card- and account-number input masks of the
    repository (the two form versions of [two-inputs.tsx], the self-contained
    [useAtmMask] hook with [validateAtmNumber], and the react-input-mask
    variant with its zod schema), followed by the properties the
    specification states about them.

    JavaScript strings are sequences of UTF-16 code units; they are modelled
    as lists of code units, each a natural number. *)

From Stdlib Require Import String Ascii NArith ZArith Bool Lia List.
Import ListNotations.

Set Implicit Arguments.

Local Open Scope list_scope.

(** ** JavaScript strings and the built-ins the sources call *)

Module JS.

Definition code_unit := N.
Definition jsstring := list code_unit.

(** A string literal of the source, as code units (ASCII literals only). *)
Definition str (s : string) : jsstring :=
  map N_of_ascii (list_ascii_of_string s).

(** [\d] is [0-9]; [\D] is its complement (no [u] flag in any source regex). *)
Definition is_digit (c : code_unit) : bool :=
  ((48 <=? c) && (c <=? 57))%N.

(** ECMAScript LineTerminator: LF, CR, LS, PS.  The regex atom [.] matches
    every code unit but these. *)
Definition is_line_terminator (c : code_unit) : bool :=
  ((c =? 10) || (c =? 13) || (c =? 8232) || (c =? 8233))%N.

(** ECMAScript WhiteSpace and LineTerminator: what [\s] matches and what
    [String.prototype.trim] strips. *)
Definition is_whitespace (c : code_unit) : bool :=
  ((c =? 9) || (c =? 10) || (c =? 11) || (c =? 12) || (c =? 13) || (c =? 32)
   || (c =? 160) || (c =? 5760) || ((8192 <=? c) && (c <=? 8202))
   || (c =? 8232) || (c =? 8233) || (c =? 8239) || (c =? 8287)
   || (c =? 12288) || (c =? 65279))%N.

Definition is_hyphen (c : code_unit) : bool := (c =? 45)%N.

(** [s.slice(start, end)] and [s.slice(start)] for the non-negative literal
    indices the formatters use; an [end] past the string stops at its end. *)
Definition slice (s : jsstring) (start end_ : nat) : jsstring :=
  firstn (end_ - start) (skipn start s).

Definition slice_from (s : jsstring) (start : nat) : jsstring :=
  skipn start s.

(** [s.replace(/C/g, '')] for a regex [C] that matches exactly one code unit
    of a class: every code unit of the class is deleted. *)
Definition replace_all_with_empty (cls : code_unit -> bool) (s : jsstring)
  : jsstring :=
  filter (fun c => negb (cls c)) s.

(** [value.replace(/\D/g, '')] *)
Definition replace_nondigits (value : jsstring) : jsstring :=
  replace_all_with_empty (fun c => negb (is_digit c)) value.

(** [value.replace(/\s|-/g, '')] *)
Definition replace_space_or_hyphen (value : jsstring) : jsstring :=
  replace_all_with_empty (fun c => is_whitespace c || is_hyphen c) value.

(** [s.trim()] *)
Fixpoint trim_start (s : jsstring) : jsstring :=
  match s with
  | [] => []
  | c :: r => if is_whitespace c then trim_start r else s
  end.

Definition trim (s : jsstring) : jsstring :=
  rev (trim_start (rev (trim_start s))).

(** [!value] on a string: true for the empty string only. *)
Definition falsy (value : jsstring) : bool :=
  match value with
  | [] => true
  | _ :: _ => false
  end.

(** [s === ''] *)
Definition is_empty (s : jsstring) : bool :=
  match s with
  | [] => true
  | _ :: _ => false
  end.

(** [parts.join(sep)] *)
Fixpoint join (sep : jsstring) (parts : list jsstring) : jsstring :=
  match parts with
  | [] => []
  | p :: ps =>
      match ps with
      | [] => p
      | _ :: _ => p ++ sep ++ join sep ps
      end
  end.

(** [arr.indexOf(x)] on an array of numbers: the first index, or -1. *)
Fixpoint indexOf_from (i : Z) (arr : list Z) (x : Z) : Z :=
  match arr with
  | [] => (-1)%Z
  | y :: r => if (y =? x)%Z then i else indexOf_from (i + 1)%Z r x
  end.

Definition indexOf (arr : list Z) (x : Z) : Z := indexOf_from 0%Z arr x.

(** *** The regular expressions of the sources *)

(** One attempt of [.{1,4}] at the start of [s]: greedy, so the longest run
    of at most [n] code units none of which is a line terminator.  The empty
    run means the attempt fails ([{1,4}] needs one unit). *)
Fixpoint dot_run (n : nat) (s : jsstring) : jsstring :=
  match n, s with
  | S n', c :: r => if is_line_terminator c then [] else c :: dot_run n' r
  | _, _ => []
  end.

(** The matches of [/.{1,4}/g] from left to right: a successful attempt is
    recorded and the scan resumes after it, a failed one moves the scan one
    unit on.  Every step consumes a unit, so [length s] steps suffice. *)
Fixpoint scan_dot_1_4 (fuel : nat) (s : jsstring) : list jsstring :=
  match fuel with
  | O => []
  | S fuel' =>
      match s with
      | [] => []
      | _ :: r =>
          match dot_run 4 s with
          | [] => scan_dot_1_4 fuel' r
          | m => m :: scan_dot_1_4 fuel' (skipn (length m) s)
          end
      end
  end.

(** [s.match(/.{1,4}/g)]: the array of matches, or [null] when there is none. *)
Definition match_dot_1_4 (s : jsstring) : option (list jsstring) :=
  match scan_dot_1_4 (length s) s with
  | [] => None
  | ms => Some ms
  end.

(** [x || []] on the result of [match]. *)
Definition or_empty (x : option (list jsstring)) : list jsstring :=
  match x with
  | Some ms => ms
  | None => []
  end.

(** The validation patterns are anchored at both ends ([^...$], no [m] flag)
    and made of atoms that each consume exactly one code unit. *)
Inductive atom : Type :=
| Digit                      (* \d *)
| Space                      (* \s *)
| Lit (c : code_unit).       (* a literal character *)

Definition atom_matches (a : atom) (c : code_unit) : bool :=
  match a with
  | Digit => is_digit c
  | Space => is_whitespace c
  | Lit l => (c =? l)%N
  end.

(** [/^a1 a2 ... an$/.test(s)] *)
Fixpoint test_anchored (pattern : list atom) (s : jsstring) : bool :=
  match pattern, s with
  | [], [] => true
  | a :: p, c :: r => atom_matches a c && test_anchored p r
  | _, _ => false
  end.

(** [\d{n}] *)
Definition d_repeat (n : nat) : list atom := repeat Digit n.

(** The literal text [" - "] inside a pattern. *)
Definition lit_sep : list atom := [Lit 32%N; Lit 45%N; Lit 32%N].

(** [\s-\s] *)
Definition space_sep : list atom := [Space; Lit 45%N; Space].

(** [s.slice(0, -1)]: a negative [end] counts from the end of the string. *)
Definition slice_drop_last (s : jsstring) : jsstring :=
  firstn (length s - 1) s.

(** [a === b] on two strings. *)
Fixpoint strict_eq (a b : jsstring) : bool :=
  match a, b with
  | [], [] => true
  | x :: a', y :: b' => (x =? y)%N && strict_eq a' b'
  | _, _ => false
  end.

(** [/[C]/.test(s)] for a character class [C], not anchored: some code unit
    of [s] is in the class. *)
Definition test_class (cls : code_unit -> bool) (s : jsstring) : bool :=
  existsb cls s.

(** [[A-Z]], [[a-z]] and [[^A-Za-z0-9]] ([[0-9]] is [is_digit]). *)
Definition is_upper (c : code_unit) : bool := ((65 <=? c) && (c <=? 90))%N.
Definition is_lower (c : code_unit) : bool := ((97 <=? c) && (c <=? 122))%N.
Definition is_special (c : code_unit) : bool :=
  negb (is_upper c || is_lower c || is_digit c).

(** Truthiness of a value that is a string or [null]. *)
Definition truthy (x : option string) : bool :=
  match x with
  | Some (String _ _) => true
  | _ => false
  end.

End JS.

Import JS.

(** The separator every formatter writes between groups. *)
Definition sep : jsstring := str " - ".

(** The first two statements of every formatter, which the specification
    calls [extractDigits]:
    [const digits = value.replace(/\D/g, '');]
    [const limitedDigits = digits.slice(0, maxDigits);] *)
Definition extractDigits (maxDigits : nat) (value : jsstring) : jsstring :=
  let digits := replace_nondigits value in
  slice digits 0 maxDigits.

(** ** zod string schemas

    A schema of the sources is [z.string()] followed by checks ([min],
    [regex], [refine]), each with its message.  None of the checks aborts,
    so parsing a string raises one issue per failing check, in the order the
    checks are chained. *)

Record check : Type := MkCheck {
  passes : jsstring -> bool;
  message : string
}.

Definition issues (schema : list check) (value : jsstring) : list string :=
  map message (filter (fun c => negb (passes c value)) schema).

(** [.min(n, msg)] *)
Definition zmin (n : nat) (msg : string) : check :=
  MkCheck (fun value => n <=? length value) msg.

(** ** two-inputs.tsx *)

Module TwoInputs.

Definition msg_empty : string := "ATM number should not be empty".
Definition msg_short : string := "ATM number must be at least 15 characters".
Definition msg_format : string :=
  "ATM number must be in format: 0000 - 0000 - 0000 - 0000".

Definition msg_account_empty : string := "Account number should not be empty".
Definition msg_account_short : string :=
  "Account number must be at least 10 characters".
Definition msg_account_format : string :=
  "Account number must be in format: 000 - 000 - 0000".

(** [/^\d{4}\s-\s\d{4}\s-\s\d{4}\s-\s\d{4}$/] *)
Definition atm_pattern : list atom :=
  d_repeat 4 ++ space_sep ++ d_repeat 4 ++ space_sep ++ d_repeat 4 ++ space_sep
  ++ d_repeat 4.

(** [/^\d{3}\s-\s\d{3}\s-\s\d{4}$/] *)
Definition account_pattern : list atom :=
  d_repeat 3 ++ space_sep ++ d_repeat 3 ++ space_sep ++ d_repeat 4.

(** [formSchema.atmNumber] (and [atmSchema.atmNumber] of the single-field
    version, which is the same chain). *)
Definition atmNumber : list check :=
  [ zmin 1 msg_empty;
    MkCheck (fun value => 15 <=? length (replace_space_or_hyphen value))
          msg_short;
    MkCheck (fun value => test_anchored atm_pattern value) msg_format ].

(** [formSchema.accountNumber] *)
Definition accountNumber : list check :=
  [ zmin 1 msg_account_empty;
    MkCheck (fun value => 10 <=? length (replace_space_or_hyphen value))
          msg_account_short;
    MkCheck (fun value => test_anchored account_pattern value)
          msg_account_format ].

(** [formatAtmNumber]: the cascade of slices (both versions in the file are
    the same text). *)
Definition formatAtmNumber (value : jsstring) : jsstring :=
  let digits := replace_nondigits value in
  let limitedDigits := slice digits 0 16 in
  if length limitedDigits <=? 4 then
    limitedDigits
  else if length limitedDigits <=? 8 then
    slice limitedDigits 0 4 ++ sep ++ slice_from limitedDigits 4
  else if length limitedDigits <=? 12 then
    slice limitedDigits 0 4 ++ sep ++ slice limitedDigits 4 8 ++ sep
    ++ slice_from limitedDigits 8
  else
    slice limitedDigits 0 4 ++ sep ++ slice limitedDigits 4 8 ++ sep
    ++ slice limitedDigits 8 12 ++ sep ++ slice_from limitedDigits 12.

Definition formatAccountNumber (value : jsstring) : jsstring :=
  let digits := replace_nondigits value in
  let limitedDigits := slice digits 0 10 in
  if length limitedDigits <=? 3 then
    limitedDigits
  else if length limitedDigits <=? 6 then
    slice limitedDigits 0 3 ++ sep ++ slice_from limitedDigits 3
  else
    slice limitedDigits 0 3 ++ sep ++ slice limitedDigits 3 6 ++ sep
    ++ slice_from limitedDigits 6.

(** [handleAtmInputChange] and [handleAccountInputChange]:
    [setValue(name, formattedValue, { shouldValidate: true })] stores the
    formatted text in the field and validates it at once; the pair is the
    field's new value and the issues of its schema. *)
Definition handleAtmInputChange (targetValue : jsstring)
  : jsstring * list string :=
  let formattedValue := formatAtmNumber targetValue in
  (formattedValue, issues atmNumber formattedValue).

Definition handleAccountInputChange (targetValue : jsstring)
  : jsstring * list string :=
  let formattedValue := formatAccountNumber targetValue in
  (formattedValue, issues accountNumber formattedValue).

(** The number the indicators "n/16 digits" and "n/10 digits" show:
    [value ? value.replace(/\s|-/g, '').length : 0]. *)
Definition digitsIndicator (value : jsstring) : nat :=
  if falsy value then 0 else length (replace_space_or_hyphen value).

End TwoInputs.

(** ** Keyboard events

    What the two [handleKeyDown] handlers read of the event: the key code,
    two modifier flags and the current value of the input the event targets.
    A handler either returns or calls [e.preventDefault()]; it is modelled by
    the flag [defaultPrevented] it leaves on the event. *)

Record KeyboardEvent : Type := {
  keyCode : Z;
  ctrlKey : bool;
  shiftKey : bool;
  target_value : jsstring
}.

(** ** The [useAtmMask] hook and [validateAtmNumber] *)

Module AtmMask.

Definition msg_required : string := "ATM number is required".
Definition msg_digits : string := "ATM number must be 16 digits".
Definition msg_format : string :=
  "ATM number must be in format: 0000 - 0000 - 0000 - 0000".

(** [/^\d{4} - \d{4} - \d{4} - \d{4}$/] *)
Definition atm_pattern : list atom :=
  d_repeat 4 ++ lit_sep ++ d_repeat 4 ++ lit_sep ++ d_repeat 4 ++ lit_sep
  ++ d_repeat 4.

(** [formatAtmNumber]: chunks of up to four units joined by the separator. *)
Definition formatAtmNumber (value : jsstring) : jsstring :=
  let digits := replace_nondigits value in
  let limitedDigits := slice digits 0 16 in
  let groups := or_empty (match_dot_1_4 limitedDigits) in
  join sep groups.

(** [handleKeyDown]: [true] when the handler calls [preventDefault]. *)
Definition handleKeyDown (e : KeyboardEvent) : bool :=
  let currentValue := target_value e in
  let currentDigits := replace_nondigits currentValue in
  if (negb (indexOf [8; 9; 27; 13; 46] (keyCode e) =? -1)
      || ((keyCode e =? 65) && ctrlKey e)
      || ((keyCode e =? 67) && ctrlKey e)
      || ((keyCode e =? 86) && ctrlKey e)
      || ((keyCode e =? 88) && ctrlKey e)
      || ((keyCode e =? 90) && ctrlKey e)
      || ((keyCode e >=? 35) && (keyCode e <=? 39)))%Z
  then false
  else if (16 <=? length currentDigits)%nat
  then true
  else if ((shiftKey e || ((keyCode e <? 48) || (keyCode e >? 57)))
           && ((keyCode e <? 96) || (keyCode e >? 105)))%Z
  then true
  else false.

(** [validateAtmNumber]: the error message, or [None] for [null]. *)
Definition validateAtmNumber (value : jsstring) : option string :=
  if falsy value || is_empty (trim value)
  then Some msg_required
  else
    let digits := replace_nondigits value in
    if (length digits <? 16)%nat
    then Some msg_digits
    else if negb (test_anchored atm_pattern value)
    then Some msg_format
    else None.

(** [atmNumber.replace(/\s|-/g, '')]: what [handleSubmit] logs and what the
    page shows as "Clean". *)
Definition cleanAtmNumber (atmNumber : jsstring) : jsstring :=
  replace_space_or_hyphen atmNumber.

Definition msg_failed : string :=
  "Failed to submit ATM number. Please try again.".

(** The state of [AtmNumberForm]: three [useState] cells. *)
Record FormState : Type := {
  atmNumber : jsstring;
  error : option string;
  isSubmitting : bool
}.

Definition initialState : FormState :=
  {| atmNumber := []; error := None; isSubmitting := false |}.

(** [handleAtmNumberChange] *)
Definition handleAtmNumberChange (value : jsstring) (st : FormState)
  : FormState :=
  {| atmNumber := value;
     error := if truthy (error st) then None else error st;
     isSubmitting := isSubmitting st |}.

(** [handleAtmChange(e, onChange)] of the hook, with [e.target.value]. *)
Definition handleAtmChange (targetValue : jsstring)
    (onChange : jsstring -> FormState -> FormState) : FormState -> FormState :=
  let inputValue := targetValue in
  let formatted := formatAtmNumber inputValue in
  onChange formatted.

(** [handleSubmit] up to its [await]: the new state and, when validation
    passes, the [atmNumber] the rest of the function closes over. *)
Definition handleSubmit_begin (st : FormState)
  : FormState * option jsstring :=
  let validationError := validateAtmNumber (atmNumber st) in
  if truthy validationError
  then ({| atmNumber := atmNumber st; error := validationError;
           isSubmitting := isSubmitting st |}, None)
  else ({| atmNumber := atmNumber st; error := None;
           isSubmitting := true |}, Some (atmNumber st)).

(** [handleSubmit] after its [await]: the [try] body logs the clean number
    and empties the field, the [catch] body sets the failure message, and
    [finally] clears [isSubmitting].  [thrown] tells whether the awaited
    call failed, in which case nothing is logged; the second component is
    what [console.log] received. *)
Definition handleSubmit_settle (captured : jsstring) (thrown : bool)
    (st : FormState) : FormState * list jsstring :=
  if thrown
  then ({| atmNumber := atmNumber st; error := Some msg_failed;
           isSubmitting := false |}, [])
  else ({| atmNumber := []; error := error st; isSubmitting := false |},
        [cleanAtmNumber captured]).

(** The page between two events: the state, the submission in flight if
    any, and what was logged so far (latest first). *)
Record Page : Type := {
  form : FormState;
  inFlight : option jsstring;
  logged : list jsstring
}.

Definition initialPage : Page :=
  {| form := initialState; inFlight := None; logged := [] |}.

(** What can happen to the page: the user edits the input, the user clicks
    the button (disabled while [isSubmitting]), a submission in flight
    settles. *)
Inductive Event : Type :=
| InputChange (targetValue : jsstring)
| ClickSubmit
| Settle (thrown : bool).

Definition react (p : Page) (ev : Event) : Page :=
  match ev with
  | InputChange targetValue =>
      {| form := handleAtmChange targetValue handleAtmNumberChange (form p);
         inFlight := inFlight p; logged := logged p |}
  | ClickSubmit =>
      if isSubmitting (form p) then p
      else
        let (st, captured) := handleSubmit_begin (form p) in
        {| form := st;
           inFlight := match captured with
                       | Some v => Some v
                       | None => inFlight p
                       end;
           logged := logged p |}
  | Settle thrown =>
      match inFlight p with
      | None => p
      | Some captured =>
          let (st, out) := handleSubmit_settle captured thrown (form p) in
          {| form := st; inFlight := None; logged := out ++ logged p |}
      end
  end.

Definition run (events : list Event) : Page :=
  fold_left react events initialPage.

End AtmMask.

(** ** The react-input-mask variant with its zod schema *)

Module AtmInputMask.

Definition msg_required : string := "ATM number is required".
Definition msg_format : string :=
  "ATM number must be in format: 0000 - 0000 - 0000 - 0000".
Definition msg_digits : string := "ATM number must be 16 digits".

(** [schema.atmNumber] *)
Definition atmNumber : list check :=
  [ zmin 1 msg_required;
    MkCheck (fun value => test_anchored AtmMask.atm_pattern value) msg_format;
    MkCheck (fun val => length (replace_space_or_hyphen val) =? 16)%nat
            msg_digits ].

(** [handleKeyDown] of [AtmNumberInput]: no check of the digits already in
    the field. *)
Definition handleKeyDown (e : KeyboardEvent) : bool :=
  if (negb (indexOf [8; 9; 27; 13; 46] (keyCode e) =? -1)
      || ((keyCode e =? 65) && ctrlKey e)
      || ((keyCode e =? 67) && ctrlKey e)
      || ((keyCode e =? 86) && ctrlKey e)
      || ((keyCode e =? 88) && ctrlKey e)
      || ((keyCode e =? 90) && ctrlKey e)
      || ((keyCode e >=? 35) && (keyCode e <=? 39)))%Z
  then false
  else if ((shiftKey e || ((keyCode e <? 48) || (keyCode e >? 57)))
           && ((keyCode e <? 96) || (keyCode e >? 105)))%Z
  then true
  else false.

(** The state react-input-mask hands to [beforeMaskedStateChange]: the
    value, and the other fields the spread [...nextState] carries over
    unread. *)
Record MaskState (A : Type) : Type := {
  value : jsstring;
  others : A
}.

(** [beforeMaskedStateChange] of [AtmNumberInputAdvanced] *)
Definition beforeMaskedStateChange (A : Type) (nextState : MaskState A)
  : MaskState A :=
  let digits := replace_nondigits (value nextState) in
  if 16 <? length digits
  then {| value := slice_drop_last (value nextState);
          others := others nextState |}
  else nextState.

(** [data.atmNumber.replace(/\s|-/g, '')] of [onSubmit] *)
Definition cleanAtmNumber (atmNumber : jsstring) : jsstring :=
  replace_space_or_hyphen atmNumber.

End AtmInputMask.

(** ** val2.tsx: the two password forms *)

Module PasswordForms.

Record PasswordFormData : Type := {
  password : jsstring;
  confirmPassword : jsstring
}.

(** An issue of an object schema: the path of the field and the message. *)
Definition at_path (path : string) (msgs : list string)
  : list (string * string) :=
  map (fun m => (path, m)) msgs.

(** [.refine((data) => data.password === data.confirmPassword,]
    [{ message: "Passwords don't match", path: ["confirmPassword"] })] *)
Definition passwords_match_issue (data : PasswordFormData)
  : list (string * string) :=
  if strict_eq (password data) (confirmPassword data) then []
  else [("confirmPassword"%string, "Passwords don't match"%string)].

(** [passwordSchema] of [PasswordValidationForm] *)
Definition validation_password : list check :=
  [ zmin 8 "Password must be at least 8 characters"%string;
    MkCheck (test_class is_upper)
            "Password must contain at least one uppercase letter"%string;
    MkCheck (test_class is_lower)
            "Password must contain at least one lowercase letter"%string;
    MkCheck (test_class is_digit)
            "Password must contain at least one number"%string;
    MkCheck (test_class is_special)
            "Password must contain at least one special character"%string ].

Definition validationSchema (data : PasswordFormData)
  : list (string * string) :=
  at_path "password"%string (issues validation_password (password data))
  ++ at_path "confirmPassword"%string (issues [] (confirmPassword data))
  ++ passwords_match_issue data.

(** [passwordSchema] of [PasswordForm] *)
Definition create_password : list check :=
  [ zmin 1 "Password is required"%string;
    zmin 8 "Password must be at least 8 characters"%string;
    MkCheck (test_class is_upper)
            "Password must contain at least one uppercase letter"%string;
    MkCheck (test_class is_lower)
            "Password must contain at least one lowercase letter"%string;
    MkCheck (test_class is_digit)
            "Password must contain at least one number"%string ].

Definition create_confirmPassword : list check :=
  [ zmin 1 "Confirm password is required"%string ].

Definition createSchema (data : PasswordFormData)
  : list (string * string) :=
  at_path "password"%string (issues create_password (password data))
  ++ at_path "confirmPassword"%string
       (issues create_confirmPassword (confirmPassword data))
  ++ passwords_match_issue data.

(** The [validations] object of [PasswordForm], the live checklist. *)
Record Validations : Type := {
  minLength : bool;
  hasUppercase : bool;
  hasLowercase : bool;
  hasNumber : bool;
  passwordsMatch : bool;
  bothNotEmpty : bool
}.

Definition validations (password confirmPassword : jsstring) : Validations :=
  {| minLength := 8 <=? length password;
     hasUppercase := test_class is_upper password;
     hasLowercase := test_class is_lower password;
     hasNumber := test_class is_digit password;
     passwordsMatch :=
       strict_eq password confirmPassword && (0 <? length confirmPassword);
     bothNotEmpty :=
       (0 <? length password) && (0 <? length confirmPassword) |}.

End PasswordForms.

(** ** The specification's vocabulary, and auxiliary definitions *)

(** A group specification: the group lengths and the separator. *)
Record GroupSpec : Type := {
  groupLengths : list nat;
  separator : jsstring
}.

Definition atmSpec : GroupSpec :=
  {| groupLengths := [4; 4; 4; 4]; separator := sep |}.

Definition accountSpec : GroupSpec :=
  {| groupLengths := [3; 3; 4]; separator := sep |}.

(** The digit string cut left to right into groups of the given lengths;
    the last group may be short, and no empty group is produced. *)
Fixpoint partition_groups (lengths : list nat) (d : jsstring)
  : list jsstring :=
  match lengths with
  | [] => []
  | g :: gs =>
      match d with
      | [] => []
      | _ :: _ => firstn g d :: partition_groups gs (skipn g d)
      end
  end.

(** [formatGrouped] as the specification words it: partition, then join
    with the separator. *)
Definition formatGrouped (d : jsstring) (spec : GroupSpec) : jsstring :=
  join (separator spec) (partition_groups (groupLengths spec) d).

(** The digit extractor as the specification words it: walk the input once,
    keep the decimal digits in order, stop after [maxDigits] of them. *)
Fixpoint digit_subsequence (raw : jsstring) (maxDigits : nat) : jsstring :=
  match raw with
  | [] => []
  | c :: r =>
      match maxDigits with
      | O => []
      | S m =>
          if is_digit c then c :: digit_subsequence r m
          else digit_subsequence r maxDigits
      end
  end.

(** [sub] is an ordered subsequence of [s]. *)
Inductive subsequence : jsstring -> jsstring -> Prop :=
| subseq_nil : subsequence [] []
| subseq_skip c sub s : subsequence sub s -> subsequence sub (c :: s)
| subseq_keep c sub s : subsequence sub s -> subsequence (c :: sub) (c :: s).

(** A string of decimal digits. *)
Definition digit_string (d : jsstring) : Prop :=
  Forall (fun c => is_digit c = true) d.

(** How many decimal digits a string holds. *)
Definition digit_count (value : jsstring) : nat :=
  length (filter is_digit value).

(** A string that is empty or made of whitespace only. *)
Definition blank (value : jsstring) : bool := forallb is_whitespace value.

(** Key codes of the control and navigation keys the key filter names:
    backspace, delete, tab, escape, enter, the four arrows (left, up, right,
    down), home and end. *)
Definition navigation_keys : list Z :=
  [8; 46; 9; 27; 13; 37; 38; 39; 40; 36; 35]%Z.

Definition is_navigation_key (e : KeyboardEvent) : bool :=
  existsb (Z.eqb (keyCode e)) navigation_keys.

(** Select-all, copy, paste, cut and undo: A, C, V, X or Z with the control
    key held. *)
Definition is_clipboard_shortcut (e : KeyboardEvent) : bool :=
  ctrlKey e && existsb (Z.eqb (keyCode e)) [65; 67; 86; 88; 90]%Z.

(** A decimal digit key: the main row without shift, or the numeric keypad. *)
Definition is_digit_key (e : KeyboardEvent) : bool :=
  ((negb (shiftKey e) && (48 <=? keyCode e) && (keyCode e <=? 57))
   || ((96 <=? keyCode e) && (keyCode e <=? 105)))%Z.

(** The condition of the first [if] of both [handleKeyDown] handlers: the
    keys they let through without looking further. *)
Definition exempt (e : KeyboardEvent) : bool :=
  (negb (indexOf [8; 9; 27; 13; 46] (keyCode e) =? -1)
   || ((keyCode e =? 65) && ctrlKey e)
   || ((keyCode e =? 67) && ctrlKey e)
   || ((keyCode e =? 86) && ctrlKey e)
   || ((keyCode e =? 88) && ctrlKey e)
   || ((keyCode e =? 90) && ctrlKey e)
   || ((keyCode e >=? 35) && (keyCode e <=? 39)))%Z.

(** The specification's [filterKeystroke]: [true] allows the keystroke. *)
Definition filterKeystroke (e : KeyboardEvent) : bool :=
  negb (AtmMask.handleKeyDown e).

(** Chunks of [n] units, the last one possibly short: what the scan for
    [.{1,4}] yields on a string without line terminators. *)
Fixpoint chunks (fuel n : nat) (s : jsstring) : list jsstring :=
  match fuel with
  | O => []
  | S fuel' =>
      match s with
      | [] => []
      | _ :: _ => firstn n s :: chunks fuel' n (skipn n s)
      end
  end.

(** How many [\d] atoms a pattern has, and whether its literals are all
    characters other than digits. *)
Fixpoint digit_atoms (pattern : list atom) : nat :=
  match pattern with
  | [] => 0
  | Digit :: p => S (digit_atoms p)
  | _ :: p => digit_atoms p
  end.

Definition literal_not_digit (a : atom) : bool :=
  match a with
  | Lit l => negb (is_digit l)
  | _ => true
  end.

(** Whether a pattern atom other than [\d] matches only characters that
    [replace(/\s|-/g, '')] deletes. *)
Definition literal_is_separator (a : atom) : bool :=
  match a with
  | Lit l => is_whitespace l || is_hyphen l
  | _ => true
  end.

(** The length of the grouped form of [n] digits in groups of four. *)
Definition atm_formatted_length (n : nat) : nat := n + 3 * ((n - 1) / 4).

(** The length of the grouped form of [n] digits in groups of three, three
    and four. *)
Definition account_formatted_length (n : nat) : nat :=
  if n <=? 3 then n else if n <=? 6 then n + 3 else n + 6.

(** What holds of the page of the hook's form between any two events. *)
Definition page_ok (p : AtmMask.Page) : Prop :=
  AtmMask.formatAtmNumber (AtmMask.atmNumber (AtmMask.form p))
  = AtmMask.atmNumber (AtmMask.form p)
  /\ AtmMask.error (AtmMask.form p) <> Some AtmMask.msg_format
  /\ (AtmMask.error (AtmMask.form p) = None
      \/ truthy (AtmMask.error (AtmMask.form p)) = true)
  /\ (AtmMask.isSubmitting (AtmMask.form p) = true
      <-> AtmMask.inFlight p <> None)
  /\ (forall v, AtmMask.inFlight p = Some v ->
                AtmMask.validateAtmNumber v = None)
  /\ Forall (fun n => digit_string n /\ length n = 16) (AtmMask.logged p).

(** A key event with no modifier held. *)
Definition key (code : Z) (value : jsstring) : KeyboardEvent :=
  {| keyCode := code; ctrlKey := false; shiftKey := false;
     target_value := value |}.

(** * Properties *)

(** ** Character classes *)

Section CharacterClasses.

Variable c : code_unit.
Hypothesis Hdigit : is_digit c = true.

Lemma digit_bounds : (48 <= c <= 57)%N.
Proof.
  unfold is_digit in Hdigit. apply andb_prop in Hdigit.
  destruct Hdigit as [Hlo Hhi].
  apply N.leb_le in Hlo. apply N.leb_le in Hhi. lia.
Qed.

Ltac class_false :=
  pose proof digit_bounds as Hb;
  repeat match goal with
         | |- context [(c =? ?k)%N] =>
             destruct (N.eqb_spec c k); [lia | ]
         | |- context [(?k <=? c)%N] =>
             destruct (N.leb_spec k c); [lia | ]
         end;
  reflexivity.

Lemma digit_not_line_terminator : is_line_terminator c = false.
Proof. unfold is_line_terminator. class_false. Qed.

Lemma digit_not_whitespace : is_whitespace c = false.
Proof. unfold is_whitespace. class_false. Qed.

Lemma digit_not_hyphen : is_hyphen c = false.
Proof. unfold is_hyphen. class_false. Qed.

Lemma digit_not_space_char : (c =? 32)%N = false.
Proof. class_false. Qed.

End CharacterClasses.

Arguments digit_bounds [c] _.
Arguments digit_not_line_terminator [c] _.
Arguments digit_not_whitespace [c] _.
Arguments digit_not_hyphen [c] _.
Arguments digit_not_space_char [c] _.

(** ** Lists: slices, filters, joins *)

Lemma firstn_add_skipn (A : Type) (a b : nat) (l : list A) :
  firstn (a + b) l = firstn a l ++ firstn b (skipn a l).
Proof.
  revert l. induction a as [|a IH]; intros [|x l]; simpl;
    try reflexivity.
  - now rewrite firstn_nil.
  - now rewrite IH.
Qed.

Lemma Forall_firstn_keep (A : Type) (P : A -> Prop) (n : nat) (l : list A) :
  Forall P l -> Forall P (firstn n l).
Proof.
  intros H. revert n. induction H as [|x l Hx Hl IH]; intros [|n]; simpl;
    constructor; auto.
Qed.

Lemma Forall_skipn_keep (A : Type) (P : A -> Prop) (n : nat) (l : list A) :
  Forall P l -> Forall P (skipn n l).
Proof.
  intros H. revert n. induction H as [|x l Hx Hl IH]; intros [|n]; simpl;
    auto.
Qed.

Lemma skipn_length_firstn (A : Type) (n : nat) (l : list A) :
  skipn (length (firstn n l)) l = skipn n l.
Proof.
  revert l. induction n as [|n IH]; intros [|x l]; simpl; auto.
Qed.

Lemma slice_0 (s : jsstring) (n : nat) : slice s 0 n = firstn n s.
Proof. unfold slice. now rewrite Nat.sub_0_r. Qed.

Lemma replace_nondigits_filter (value : jsstring) :
  replace_nondigits value = filter is_digit value.
Proof.
  unfold replace_nondigits, replace_all_with_empty.
  induction value as [|c r IH]; simpl; [reflexivity|].
  rewrite negb_involutive, IH. reflexivity.
Qed.

Lemma replace_nondigits_app (a b : jsstring) :
  replace_nondigits (a ++ b) = replace_nondigits a ++ replace_nondigits b.
Proof. rewrite !replace_nondigits_filter. apply filter_app. Qed.

Lemma replace_nondigits_digits (value : jsstring) :
  digit_string (replace_nondigits value).
Proof.
  rewrite replace_nondigits_filter. unfold digit_string.
  apply Forall_forall. intros c Hc. apply filter_In in Hc. tauto.
Qed.

Lemma replace_nondigits_id (d : jsstring) :
  digit_string d -> replace_nondigits d = d.
Proof.
  rewrite replace_nondigits_filter.
  induction 1 as [|c r Hc Hr IH]; simpl; [reflexivity|].
  now rewrite Hc, IH.
Qed.

Lemma replace_space_or_hyphen_id (d : jsstring) :
  digit_string d -> replace_space_or_hyphen d = d.
Proof.
  unfold replace_space_or_hyphen, replace_all_with_empty.
  induction 1 as [|c r Hc Hr IH]; simpl; [reflexivity|].
  rewrite (digit_not_whitespace Hc), (digit_not_hyphen Hc), IH. reflexivity.
Qed.

Lemma extractDigits_firstn (maxDigits : nat) (value : jsstring) :
  extractDigits maxDigits value = firstn maxDigits (filter is_digit value).
Proof.
  unfold extractDigits. cbv zeta.
  now rewrite slice_0, replace_nondigits_filter.
Qed.

Lemma extractDigits_digit_string (maxDigits : nat) (value : jsstring) :
  digit_string (extractDigits maxDigits value).
Proof.
  unfold extractDigits. cbv zeta. rewrite slice_0.
  apply Forall_firstn_keep, replace_nondigits_digits.
Qed.

Lemma extractDigits_length (maxDigits : nat) (value : jsstring) :
  length (extractDigits maxDigits value) <= maxDigits.
Proof. rewrite extractDigits_firstn. apply firstn_le_length. Qed.

Lemma extractDigits_id (maxDigits : nat) (d : jsstring) :
  digit_string d -> length d <= maxDigits -> extractDigits maxDigits d = d.
Proof.
  intros Hd Hlen. unfold extractDigits. cbv zeta.
  rewrite slice_0, (replace_nondigits_id Hd). now apply firstn_all2.
Qed.

Lemma replace_nondigits_join (parts : list jsstring) :
  replace_nondigits (join sep parts) = replace_nondigits (concat parts).
Proof.
  induction parts as [|p ps IH]; [reflexivity|].
  destruct ps as [|q qs].
  - simpl. now rewrite app_nil_r.
  - change (join sep (p :: q :: qs)) with (p ++ sep ++ join sep (q :: qs)).
    change (concat (p :: q :: qs)) with (p ++ concat (q :: qs)).
    rewrite !replace_nondigits_app, IH. reflexivity.
Qed.

Lemma concat_partition_groups (lengths : list nat) (d : jsstring) :
  concat (partition_groups lengths d) = firstn (list_sum lengths) d.
Proof.
  revert d. induction lengths as [|g gs IH]; intros d.
  - reflexivity.
  - destruct d as [|c r].
    + simpl. now rewrite firstn_nil.
    + change (partition_groups (g :: gs) (c :: r))
        with (firstn g (c :: r) :: partition_groups gs (skipn g (c :: r))).
      change (list_sum (g :: gs)) with (g + list_sum gs).
      rewrite firstn_add_skipn. simpl concat. now rewrite IH.
Qed.

(** ** The scan for [.{1,4}] *)

Lemma dot_run_firstn (n : nat) (s : jsstring) :
  Forall (fun c => is_line_terminator c = false) s ->
  dot_run n s = firstn n s.
Proof.
  intros H. revert n.
  induction H as [|c r Hc Hr IH]; intros [|n]; simpl; try reflexivity.
  now rewrite Hc, IH.
Qed.

Lemma scan_dot_1_4_chunks (fuel : nat) (s : jsstring) :
  Forall (fun c => is_line_terminator c = false) s ->
  scan_dot_1_4 fuel s = chunks fuel 4 s.
Proof.
  revert s. induction fuel as [|fuel IH]; intros s Hs; [reflexivity|].
  destruct s as [|c r]; [reflexivity|].
  cbn [scan_dot_1_4 chunks].
  rewrite (dot_run_firstn 4 Hs).
  change (firstn 4 (c :: r)) with (c :: firstn 3 r). cbv iota.
  change (c :: firstn 3 r) with (firstn 4 (c :: r)).
  rewrite skipn_length_firstn.
  rewrite (IH (skipn 4 (c :: r))) by now apply Forall_skipn_keep.
  reflexivity.
Qed.

(** The fuel given to the scan is enough: more fuel changes nothing. *)
Lemma scan_dot_1_4_fuel (f1 f2 : nat) (s : jsstring) :
  length s <= f1 -> length s <= f2 ->
  scan_dot_1_4 f1 s = scan_dot_1_4 f2 s.
Proof.
  revert f2 s. induction f1 as [|f1 IH]; intros f2 s H1 H2.
  - destruct s; [|simpl in H1; lia]. now destruct f2.
  - destruct s as [|c r]; [now destruct f2|].
    destruct f2 as [|f2]; [simpl in H2; lia|].
    simpl in H1, H2. cbn [scan_dot_1_4].
    destruct (dot_run 4 (c :: r)) as [|m0 m] eqn:Hrun.
    + apply IH; lia.
    + f_equal. apply IH; simpl; rewrite length_skipn; lia.
Qed.

Lemma or_empty_match_dot_1_4 (s : jsstring) :
  or_empty (match_dot_1_4 s) = scan_dot_1_4 (length s) s.
Proof.
  unfold match_dot_1_4. now destruct (scan_dot_1_4 (length s) s).
Qed.

Lemma digit_string_no_line_terminator (d : jsstring) :
  digit_string d -> Forall (fun c => is_line_terminator c = false) d.
Proof.
  intros H. eapply Forall_impl; [|exact H].
  intros c Hc. now apply digit_not_line_terminator.
Qed.

(** ** The three formatters write the grouped form of the extracted digits *)

Lemma chunks_partition_16 (d : jsstring) :
  length d <= 16 ->
  chunks (length d) 4 d = partition_groups [4; 4; 4; 4] d.
Proof. intros H. do 17 (destruct d as [|? d]; [reflexivity|]). simpl in H; lia. Qed.

Lemma cascade_formatAtmNumber (value : jsstring) :
  TwoInputs.formatAtmNumber value
  = formatGrouped (extractDigits 16 value) atmSpec.
Proof.
  unfold TwoInputs.formatAtmNumber. cbv zeta.
  change (slice (replace_nondigits value) 0 16)
    with (extractDigits 16 value).
  pose proof (extractDigits_length 16 value) as H.
  revert H. generalize (extractDigits 16 value). intros d H.
  do 17 (destruct d as [|? d]; [reflexivity|]). simpl in H; lia.
Qed.

Lemma cascade_formatAccountNumber (value : jsstring) :
  TwoInputs.formatAccountNumber value
  = formatGrouped (extractDigits 10 value) accountSpec.
Proof.
  unfold TwoInputs.formatAccountNumber. cbv zeta.
  change (slice (replace_nondigits value) 0 10)
    with (extractDigits 10 value).
  pose proof (extractDigits_length 10 value) as H.
  revert H. generalize (extractDigits 10 value). intros d H.
  do 11 (destruct d as [|? d]; [reflexivity|]). simpl in H; lia.
Qed.

Lemma regex_formatAtmNumber (value : jsstring) :
  AtmMask.formatAtmNumber value
  = formatGrouped (extractDigits 16 value) atmSpec.
Proof.
  unfold AtmMask.formatAtmNumber. cbv zeta.
  change (slice (replace_nondigits value) 0 16)
    with (extractDigits 16 value).
  rewrite or_empty_match_dot_1_4.
  rewrite scan_dot_1_4_chunks
    by apply digit_string_no_line_terminator, extractDigits_digit_string.
  rewrite chunks_partition_16 by apply extractDigits_length.
  reflexivity.
Qed.

(** ** Extraction *)

Lemma digit_subsequence_firstn (raw : jsstring) (maxDigits : nat) :
  digit_subsequence raw maxDigits = firstn maxDigits (filter is_digit raw).
Proof.
  revert maxDigits. induction raw as [|c r IH]; intros [|m]; simpl;
    try reflexivity.
  destruct (is_digit c); simpl; now rewrite IH.
Qed.

Lemma subsequence_filter (f : code_unit -> bool) (s : jsstring) :
  subsequence (filter f s) s.
Proof.
  induction s as [|c r IH]; simpl; [constructor|].
  destruct (f c); now constructor.
Qed.

Lemma subsequence_firstn (n : nat) (sub s : jsstring) :
  subsequence sub s -> subsequence (firstn n sub) s.
Proof.
  intros H. revert n. induction H as [|c sub s H IH|c sub s H IH]; intros n.
  - rewrite firstn_nil. constructor.
  - apply subseq_skip, IH.
  - destruct n as [|n]; simpl.
    + apply subseq_skip. exact (IH 0).
    + apply subseq_keep, IH.
Qed.

(** C6 - Extractor totality and truncation.  [extractDigits] is a total
    function; for every input and every maximum its result is the ordered
    subsequence of the ASCII decimal digits of the input, cut after
    [maxDigits] of them: it agrees with the one-pass reading of the
    specification, holds digits only, is a subsequence of the input, is a
    prefix of all the digits of the input, and has [min maxDigits
    (digit_count value)] units.  The empty string gives the empty string,
    ["12-34 ab56"] gives ["123456"], and twenty digits with a maximum of
    sixteen give the first sixteen. *)
Theorem extractDigits_total_truncating (maxDigits : nat) (value : jsstring) :
  extractDigits maxDigits value = digit_subsequence value maxDigits
  /\ digit_string (extractDigits maxDigits value)
  /\ subsequence (extractDigits maxDigits value) value
  /\ extractDigits maxDigits value = firstn maxDigits (filter is_digit value)
  /\ length (extractDigits maxDigits value)
     = Nat.min maxDigits (digit_count value)
  /\ extractDigits maxDigits [] = []
  /\ extractDigits 16 (str "12-34 ab56") = str "123456"
  /\ extractDigits 16 (str "12345678901234567890") = str "1234567890123456"
  /\ length (extractDigits 16 (str "12345678901234567890")) = 16.
Proof.
  repeat split; try reflexivity.
  - now rewrite digit_subsequence_firstn, extractDigits_firstn.
  - apply extractDigits_digit_string.
  - rewrite extractDigits_firstn.
    apply subsequence_firstn, subsequence_filter.
  - apply extractDigits_firstn.
  - rewrite extractDigits_firstn. apply length_firstn.
  - unfold extractDigits. cbv zeta. rewrite slice_0. apply firstn_nil.
Qed.

(** ** Round trip *)

Lemma extractDigits_formatGrouped (spec : GroupSpec) (d : jsstring) :
  separator spec = sep ->
  digit_string d ->
  length d <= list_sum (groupLengths spec) ->
  extractDigits (list_sum (groupLengths spec)) (formatGrouped d spec) = d.
Proof.
  intros Hsep Hd Hlen. unfold extractDigits, formatGrouped. cbv zeta.
  rewrite slice_0, Hsep, replace_nondigits_join, concat_partition_groups.
  rewrite (@firstn_all2 _ (list_sum (groupLengths spec)) d Hlen).
  rewrite (replace_nondigits_id Hd). now apply firstn_all2.
Qed.

(** C1 - Round trip.  For every digit string [d] of at most sixteen units,
    extracting the digits of what either card-number formatter (the slice
    cascade and the chunking one) writes for [d] gives [d] back, and the same
    holds for the grouped form of the ATM specification; for every digit
    string of at most ten units the same holds of the account-number
    formatter and of the account specification. *)
Theorem extractDigits_format_roundtrip (d : jsstring) :
  digit_string d ->
  (length d <= 16 ->
   extractDigits 16 (TwoInputs.formatAtmNumber d) = d
   /\ extractDigits 16 (AtmMask.formatAtmNumber d) = d
   /\ extractDigits 16 (formatGrouped d atmSpec) = d)
  /\ (length d <= 10 ->
      extractDigits 10 (TwoInputs.formatAccountNumber d) = d
      /\ extractDigits 10 (formatGrouped d accountSpec) = d).
Proof.
  intros Hd. split; intros Hlen.
  - rewrite cascade_formatAtmNumber, regex_formatAtmNumber.
    rewrite (extractDigits_id Hd Hlen).
    pose proof (@extractDigits_formatGrouped atmSpec d eq_refl Hd Hlen) as H.
    auto.
  - rewrite cascade_formatAccountNumber.
    rewrite (extractDigits_id Hd Hlen).
    pose proof (@extractDigits_formatGrouped accountSpec d eq_refl Hd Hlen)
      as H.
    auto.
Qed.

Lemma extractDigits_format_roundtrip_witness :
  extractDigits 16 (TwoInputs.formatAtmNumber (str "1234567890"))
  = str "1234567890"
  /\ extractDigits 16 (AtmMask.formatAtmNumber (str "1234567890"))
     = str "1234567890"
  /\ extractDigits 10 (TwoInputs.formatAccountNumber (str "1234567890"))
     = str "1234567890".
Proof.
  assert (Hd : digit_string (str "1234567890")) by (repeat constructor).
  destruct (extractDigits_format_roundtrip Hd) as [Hatm Hacc].
  assert (H16 : length (str "1234567890") <= 16) by (simpl; lia).
  assert (H10 : length (str "1234567890") <= 10) by (simpl; lia).
  destruct (Hatm H16) as (H1 & H2 & _). destruct (Hacc H10) as (H3 & _).
  exact (conj H1 (conj H2 H3)).
Defined.

(** ** The two card-number formatters agree *)

(** C9 - Formatter implementations coincide.  The slice-cascade formatter of
    [two-inputs.tsx] and the chunking formatter of the [useAtmMask] hook
    return the same string for every input string. *)
Theorem formatAtmNumber_implementations_coincide (value : jsstring) :
  TwoInputs.formatAtmNumber value = AtmMask.formatAtmNumber value.
Proof.
  transitivity (formatGrouped (extractDigits 16 value) atmSpec).
  - apply cascade_formatAtmNumber.
  - symmetry. apply regex_formatAtmNumber.
Qed.

(** ** Shape of the grouped form *)

Lemma space_not_digit : is_digit 32%N = false.
Proof. reflexivity. Qed.

Lemma digit_string_not_space (d : jsstring) :
  digit_string d -> ~ In 32%N d.
Proof.
  intros Hd Hin. unfold digit_string in Hd. rewrite Forall_forall in Hd.
  specialize (Hd _ Hin). rewrite space_not_digit in Hd. discriminate.
Qed.

Lemma formatGrouped_no_leading_separator (spec : GroupSpec) (d x : jsstring) :
  separator spec = sep ->
  digit_string d ->
  hd 0 (groupLengths spec) <> 0 ->
  formatGrouped d spec <> sep ++ x.
Proof.
  intros Hsep Hd Hg. unfold formatGrouped. rewrite Hsep.
  destruct (groupLengths spec) as [|[|g] gs]; [discriminate| now elim Hg |].
  destruct d as [|c r]; [discriminate|].
  cbn [partition_groups firstn join].
  intros H.
  assert (Hc : c = 32%N)
    by (destruct (partition_groups gs (skipn (S g) (c :: r)));
        simpl in H; now injection H).
  subst c. apply (digit_string_not_space Hd). now left.
Qed.

(** The last unit of a grouped form cannot be the blank that ends the
    separator: the reversed form starts with a digit. *)
Ltac trailing_case d Hd H :=
  destruct d as [|? d];
  [ try discriminate H;
    cbn in H; injection H; intros; subst;
    apply (digit_string_not_space Hd); simpl; tauto
  | ].

Lemma atm_no_trailing_separator (d x : jsstring) :
  digit_string d -> length d <= 16 -> formatGrouped d atmSpec <> x ++ sep.
Proof.
  intros Hd Hlen H.
  apply (f_equal (@rev code_unit)) in H. rewrite rev_app_distr in H.
  do 17 trailing_case d Hd H. simpl in Hlen; lia.
Qed.

Lemma account_no_trailing_separator (d x : jsstring) :
  digit_string d -> length d <= 10 -> formatGrouped d accountSpec <> x ++ sep.
Proof.
  intros Hd Hlen H.
  apply (f_equal (@rev code_unit)) in H. rewrite rev_app_distr in H.
  do 11 trailing_case d Hd H. simpl in Hlen; lia.
Qed.

(** C7 - Grouped formatting shape.  For every digit string of at most
    sixteen units both card-number formatters write exactly the grouped
    form of the ATM specification: the digits cut left to right into groups
    of four, the groups joined by [" - "], the last group possibly short.
    The result neither starts nor ends with the separator.  The same holds
    of the account-number formatter, groups [3,3,4], for digit strings of at
    most ten units.  The empty digit string gives the empty string,
    ["12345"] gives ["1234 - 5"] and ["123456789012"] gives
    ["1234 - 5678 - 9012"]. *)
Theorem formatGrouped_shape (d : jsstring) :
  digit_string d ->
  (length d <= 16 ->
   TwoInputs.formatAtmNumber d = formatGrouped d atmSpec
   /\ AtmMask.formatAtmNumber d = formatGrouped d atmSpec
   /\ (forall x, formatGrouped d atmSpec <> sep ++ x)
   /\ (forall x, formatGrouped d atmSpec <> x ++ sep))
  /\ (length d <= 10 ->
      TwoInputs.formatAccountNumber d = formatGrouped d accountSpec
      /\ (forall x, formatGrouped d accountSpec <> sep ++ x)
      /\ (forall x, formatGrouped d accountSpec <> x ++ sep))
  /\ (TwoInputs.formatAtmNumber [] = []
      /\ AtmMask.formatAtmNumber [] = []
      /\ TwoInputs.formatAccountNumber [] = []
      /\ formatGrouped [] atmSpec = []
      /\ formatGrouped [] accountSpec = [])
  /\ (formatGrouped (str "12345") atmSpec = str "1234 - 5"
      /\ TwoInputs.formatAtmNumber (str "12345") = str "1234 - 5"
      /\ AtmMask.formatAtmNumber (str "12345") = str "1234 - 5")
  /\ (formatGrouped (str "123456789012") atmSpec = str "1234 - 5678 - 9012"
      /\ TwoInputs.formatAtmNumber (str "123456789012")
         = str "1234 - 5678 - 9012"
      /\ AtmMask.formatAtmNumber (str "123456789012")
         = str "1234 - 5678 - 9012").
Proof.
  intros Hd. split; [|split; [|repeat split]].
  - intros Hlen.
    rewrite cascade_formatAtmNumber, regex_formatAtmNumber.
    rewrite (extractDigits_id Hd Hlen). repeat split.
    + intros x. now apply formatGrouped_no_leading_separator.
    + intros x. now apply atm_no_trailing_separator.
  - intros Hlen.
    rewrite cascade_formatAccountNumber.
    rewrite (extractDigits_id Hd Hlen). repeat split.
    + intros x. now apply formatGrouped_no_leading_separator.
    + intros x. now apply account_no_trailing_separator.
Qed.

Lemma formatGrouped_shape_witness :
  TwoInputs.formatAtmNumber (str "12345678")
  = formatGrouped (str "12345678") atmSpec
  /\ TwoInputs.formatAccountNumber (str "12345678")
     = formatGrouped (str "12345678") accountSpec
  /\ (forall x, formatGrouped (str "12345678") atmSpec <> x ++ sep).
Proof.
  assert (Hd : digit_string (str "12345678")) by (repeat constructor).
  destruct (formatGrouped_shape Hd) as (Hatm & Hacc & _).
  assert (H16 : length (str "12345678") <= 16) by (simpl; lia).
  assert (H10 : length (str "12345678") <= 10) by (simpl; lia).
  destruct (Hatm H16) as (H1 & _ & _ & H2). destruct (Hacc H10) as (H3 & _).
  exact (conj H1 (conj H3 H2)).
Defined.

(** ** Blank strings and [trim] *)

Lemma whitespace_not_digit (c : code_unit) :
  is_whitespace c = true -> is_digit c = false.
Proof.
  intros Hw. destruct (is_digit c) eqn:Hd; [|reflexivity].
  rewrite (digit_not_whitespace Hd) in Hw. discriminate.
Qed.

Lemma trim_start_blank (s : jsstring) : blank s = true -> trim_start s = [].
Proof.
  unfold blank. induction s as [|c r IH]; simpl; [reflexivity|].
  intros H. apply andb_prop in H. destruct H as [Hc Hr].
  rewrite Hc. auto.
Qed.

Lemma trim_start_nil (s : jsstring) : trim_start s = [] -> blank s = true.
Proof.
  unfold blank. induction s as [|c r IH]; simpl; [reflexivity|].
  destruct (is_whitespace c); [auto | discriminate].
Qed.

Lemma blank_rev (s : jsstring) : blank (rev s) = blank s.
Proof.
  unfold blank. induction s as [|c r IH]; simpl; [reflexivity|].
  rewrite forallb_app, IH. simpl. rewrite andb_true_r. apply andb_comm.
Qed.

Lemma blank_trim_start (s : jsstring) :
  blank (trim_start s) = true -> blank s = true.
Proof.
  unfold blank. induction s as [|c r IH]; simpl; [reflexivity|].
  destruct (is_whitespace c) eqn:Hc; simpl; [auto|].
  rewrite Hc. discriminate.
Qed.

Lemma trim_nil_iff_blank (s : jsstring) : trim s = [] <-> blank s = true.
Proof.
  unfold trim. split.
  - intros H. apply (f_equal (@rev code_unit)) in H.
    rewrite rev_involutive in H. simpl in H.
    apply trim_start_nil in H. rewrite blank_rev in H.
    now apply blank_trim_start.
  - intros H. now rewrite (trim_start_blank _ H).
Qed.

Lemma required_condition (value : jsstring) :
  falsy value || is_empty (trim value) = blank value.
Proof.
  destruct (blank value) eqn:Hb.
  - apply trim_nil_iff_blank in Hb. rewrite Hb. apply orb_true_r.
  - destruct value as [|c r]; [discriminate Hb|].
    destruct (trim (c :: r)) eqn:Ht; [|reflexivity].
    apply trim_nil_iff_blank in Ht. congruence.
Qed.

Lemma blank_no_digits (s : jsstring) : blank s = true -> digit_count s = 0.
Proof.
  unfold blank, digit_count. induction s as [|c r IH]; simpl; [reflexivity|].
  intros H. apply andb_prop in H. destruct H as [Hc Hr].
  rewrite (whitespace_not_digit _ Hc). auto.
Qed.

(** ** [validateAtmNumber], branch by branch *)

Lemma validateAtmNumber_equation (value : jsstring) :
  AtmMask.validateAtmNumber value
  = if blank value then Some AtmMask.msg_required
    else if digit_count value <? 16 then Some AtmMask.msg_digits
    else if test_anchored AtmMask.atm_pattern value then None
    else Some AtmMask.msg_format.
Proof.
  unfold AtmMask.validateAtmNumber. cbv zeta.
  rewrite required_condition, replace_nondigits_filter.
  fold (digit_count value).
  now destruct (test_anchored AtmMask.atm_pattern value).
Qed.

(** ** Anchored patterns *)

Lemma test_anchored_length (pattern : list atom) (s : jsstring) :
  test_anchored pattern s = true -> length s = length pattern.
Proof.
  revert s. induction pattern as [|a p IH]; intros [|c r]; simpl;
    try discriminate; [reflexivity|].
  intros H. apply andb_prop in H. destruct H as [_ H]. now rewrite (IH r).
Qed.

Lemma test_anchored_digit_count (pattern : list atom) (s : jsstring) :
  forallb literal_not_digit pattern = true ->
  test_anchored pattern s = true ->
  digit_count s = digit_atoms pattern.
Proof.
  unfold digit_count.
  revert s. induction pattern as [|a p IH]; intros [|c r]; simpl;
    try discriminate; [reflexivity|].
  intros Hp H. apply andb_prop in Hp. destruct Hp as [Ha Hp].
  apply andb_prop in H. destruct H as [Hc H].
  specialize (IH r Hp H).
  destruct a as [| |l]; simpl in Hc.
  - rewrite Hc. simpl. now rewrite IH.
  - now rewrite (whitespace_not_digit _ Hc).
  - apply N.eqb_eq in Hc. subst c. simpl in Ha.
    apply negb_true_iff in Ha. now rewrite Ha.
Qed.

(** ** What the card-number pattern accepts *)

Lemma atm_pattern_literals :
  forallb literal_not_digit AtmMask.atm_pattern = true
  /\ digit_atoms AtmMask.atm_pattern = 16
  /\ forallb literal_not_digit TwoInputs.atm_pattern = true
  /\ digit_atoms TwoInputs.atm_pattern = 16.
Proof. repeat split. Qed.

Lemma atm_pattern_digit_count (v : jsstring) :
  test_anchored AtmMask.atm_pattern v = true -> digit_count v = 16.
Proof.
  intros H.
  now rewrite (test_anchored_digit_count _ _ (proj1 atm_pattern_literals) H).
Qed.

Lemma spaced_atm_pattern_digit_count (v : jsstring) :
  test_anchored TwoInputs.atm_pattern v = true -> digit_count v = 16.
Proof.
  intros H.
  destruct atm_pattern_literals as (_ & _ & Hlit & Hn).
  now rewrite (test_anchored_digit_count _ _ Hlit H).
Qed.

Lemma filter_cons_app (A : Type) (f : A -> bool) (x : A) (l : list A) :
  filter f (x :: l) = (if f x then [x] else []) ++ filter f l.
Proof. simpl. now destruct (f x). Qed.

Lemma atm_pattern_grouped (v : jsstring) :
  test_anchored AtmMask.atm_pattern v = true ->
  v = formatGrouped (filter is_digit v) atmSpec.
Proof.
  intros H. unfold AtmMask.atm_pattern in H.
  cbn [d_repeat repeat app lit_sep] in H.
  do 25 (destruct v as [|? v]; [discriminate H|];
         cbn [test_anchored] in H; apply andb_prop in H;
         destruct H as [? H]).
  destruct v; [|discriminate H]. clear H.
  cbn [atom_matches] in *.
  repeat match goal with
         | H : (_ =? _)%N = true |- _ => apply N.eqb_eq in H; subst
         end.
  rewrite !filter_cons_app.
  repeat match goal with
         | H : is_digit _ = true |- _ => rewrite H; clear H
         end.
  reflexivity.
Qed.

Lemma grouped_atm_pattern (d : jsstring) :
  digit_string d -> length d = 16 ->
  test_anchored AtmMask.atm_pattern (formatGrouped d atmSpec) = true.
Proof.
  intros Hd Hlen.
  do 16 (destruct d as [|? d]; [discriminate Hlen|]).
  destruct d; [|discriminate Hlen].
  unfold digit_string in Hd. rewrite Forall_forall in Hd.
  cbv - [is_digit N.eqb andb].
  repeat match goal with
         | |- context [is_digit ?x] => rewrite (Hd x) by (simpl; tauto)
         end.
  reflexivity.
Qed.

Lemma validateAtmNumber_accepts_iff (v : jsstring) :
  AtmMask.validateAtmNumber v = None
  <-> test_anchored AtmMask.atm_pattern v = true.
Proof.
  rewrite validateAtmNumber_equation. split.
  - destruct (blank v); [discriminate|].
    destruct (digit_count v <? 16); [discriminate|].
    now destruct (test_anchored AtmMask.atm_pattern v).
  - intros H. pose proof (atm_pattern_digit_count _ H) as Hc.
    destruct (blank v) eqn:Hb.
    + apply blank_no_digits in Hb. congruence.
    + rewrite Hc, H. reflexivity.
Qed.

(** C10 - The validator accepts exactly the formatter's full outputs.
    [validateAtmNumber] returns [null] on [v] if and only if [v] holds
    exactly sixteen digits and is what [formatAtmNumber] writes for the
    digits of [v]; and for every input with at least sixteen digits the
    validator accepts the formatted input. *)
Theorem validateAtmNumber_accepts_formatter_outputs (v : jsstring) :
  (AtmMask.validateAtmNumber v = None
   <-> digit_count v = 16
       /\ v = AtmMask.formatAtmNumber (replace_nondigits v))
  /\ (16 <= digit_count v ->
      AtmMask.validateAtmNumber (AtmMask.formatAtmNumber v) = None).
Proof.
  split.
  - rewrite validateAtmNumber_accepts_iff, regex_formatAtmNumber.
    rewrite replace_nondigits_filter. split.
    + intros H. pose proof (atm_pattern_digit_count _ H) as Hc.
      split; [exact Hc|].
      rewrite extractDigits_id.
      * now apply atm_pattern_grouped.
      * rewrite <- replace_nondigits_filter. apply replace_nondigits_digits.
      * unfold digit_count in Hc. lia.
    + intros [Hc Hv]. unfold digit_count in Hc.
      assert (Hd : digit_string (filter is_digit v))
        by (rewrite <- replace_nondigits_filter;
            apply replace_nondigits_digits).
      rewrite extractDigits_id in Hv by (auto; lia).
      rewrite Hv. now apply grouped_atm_pattern.
  - intros Hc. apply validateAtmNumber_accepts_iff.
    rewrite regex_formatAtmNumber. apply grouped_atm_pattern.
    + apply extractDigits_digit_string.
    + rewrite extractDigits_firstn, length_firstn.
      unfold digit_count in Hc. lia.
Qed.

Lemma validateAtmNumber_accepts_formatter_outputs_witness :
  AtmMask.validateAtmNumber
    (AtmMask.formatAtmNumber (str "4111 1111 1111 1111 99")) = None.
Proof.
  apply (proj2 (validateAtmNumber_accepts_formatter_outputs
                  (str "4111 1111 1111 1111 99"))).
  unfold digit_count. simpl. lia.
Defined.

(** ** The zod schemas, check by check *)

Lemma issues_three (c1 c2 c3 : check) (v : jsstring) :
  issues [c1; c2; c3] v
  = (if passes c1 v then [] else [message c1])
    ++ (if passes c2 v then [] else [message c2])
    ++ (if passes c3 v then [] else [message c3]).
Proof.
  unfold issues. cbn [filter].
  destruct (passes c1 v), (passes c2 v), (passes c3 v); reflexivity.
Qed.

Lemma length_ge_1 (v : jsstring) : (1 <=? length v) = negb (is_empty v).
Proof. now destruct v. Qed.

Lemma two_inputs_issues (v : jsstring) :
  issues TwoInputs.atmNumber v
  = (if is_empty v then [TwoInputs.msg_empty] else [])
    ++ (if 15 <=? length (replace_space_or_hyphen v)
        then [] else [TwoInputs.msg_short])
    ++ (if test_anchored TwoInputs.atm_pattern v
        then [] else [TwoInputs.msg_format]).
Proof.
  unfold TwoInputs.atmNumber. rewrite issues_three.
  cbn [passes message zmin]. rewrite length_ge_1.
  now destruct (is_empty v).
Qed.

Lemma input_mask_issues (v : jsstring) :
  issues AtmInputMask.atmNumber v
  = (if is_empty v then [AtmInputMask.msg_required] else [])
    ++ (if test_anchored AtmMask.atm_pattern v
        then [] else [AtmInputMask.msg_format])
    ++ (if length (replace_space_or_hyphen v) =? 16
        then [] else [AtmInputMask.msg_digits]).
Proof.
  unfold AtmInputMask.atmNumber. rewrite issues_three.
  cbn [passes message zmin]. rewrite length_ge_1.
  now destruct (is_empty v).
Qed.

Lemma is_empty_iff (v : jsstring) : is_empty v = true <-> v = [].
Proof. destruct v; simpl; split; congruence. Qed.

Ltac issue_cases :=
  repeat match goal with
         | |- context [if ?b then _ else _] => destruct b eqn:?
         end;
  cbn [app In];
  intuition (try discriminate; try congruence).

(** ** Empty and blank strings *)

Lemma blank_stripped (v : jsstring) :
  blank v = true -> replace_space_or_hyphen v = [].
Proof.
  unfold blank, replace_space_or_hyphen, replace_all_with_empty.
  induction v as [|c r IH]; simpl; [reflexivity|].
  intros H. apply andb_prop in H. destruct H as [Hc Hr].
  rewrite Hc. simpl. auto.
Qed.

Lemma blank_fails_patterns (v : jsstring) :
  blank v = true ->
  test_anchored AtmMask.atm_pattern v = false
  /\ test_anchored TwoInputs.atm_pattern v = false.
Proof.
  intros Hb. apply blank_no_digits in Hb. split.
  - destruct (test_anchored AtmMask.atm_pattern v) eqn:H; [|reflexivity].
    apply atm_pattern_digit_count in H. lia.
  - destruct (test_anchored TwoInputs.atm_pattern v) eqn:H; [|reflexivity].
    apply spaced_atm_pattern_digit_count in H. lia.
Qed.

(** C8 - Empty verdict.  [validateAtmNumber] returns its "required"
    message for every string that is empty or made of whitespace only, and
    for no other string; it returns one message at most, so nothing else is
    reported for such a string.  The two zod schemas test [min(1)] instead:
    they raise their "empty" message for the empty string only, and with it
    their length and format messages; a non-empty string of whitespace gets
    their length and format messages without the "empty" one. *)
Theorem empty_verdict (v : jsstring) :
  (blank v = true
   <-> AtmMask.validateAtmNumber v = Some AtmMask.msg_required)
  /\ (In TwoInputs.msg_empty (issues TwoInputs.atmNumber v) <-> v = [])
  /\ (In AtmInputMask.msg_required (issues AtmInputMask.atmNumber v)
      <-> v = [])
  /\ issues TwoInputs.atmNumber []
     = [TwoInputs.msg_empty; TwoInputs.msg_short; TwoInputs.msg_format]
  /\ issues AtmInputMask.atmNumber []
     = [AtmInputMask.msg_required; AtmInputMask.msg_format;
        AtmInputMask.msg_digits]
  /\ (v <> [] -> blank v = true ->
      issues TwoInputs.atmNumber v
      = [TwoInputs.msg_short; TwoInputs.msg_format]
      /\ issues AtmInputMask.atmNumber v
         = [AtmInputMask.msg_format; AtmInputMask.msg_digits]).
Proof.
  split; [|split; [|split; [|split; [|split]]]].
  - split.
    + intros H. rewrite validateAtmNumber_equation. now rewrite H.
    + rewrite validateAtmNumber_equation.
      destruct (blank v); [reflexivity|].
      destruct (digit_count v <? 16); [discriminate|].
      destruct (test_anchored AtmMask.atm_pattern v); discriminate.
  - split.
    + rewrite two_inputs_issues, <- is_empty_iff. issue_cases.
    + intros ->. now left.
  - split.
    + rewrite input_mask_issues, <- is_empty_iff. issue_cases.
    + intros ->. now left.
  - reflexivity.
  - reflexivity.
  - intros Hne Hb.
    assert (He : is_empty v = false)
      by (destruct v; [now elim Hne | reflexivity]).
    destruct (blank_fails_patterns v Hb) as [Hlit Hspaced].
    rewrite two_inputs_issues, input_mask_issues.
    rewrite (blank_stripped v Hb), He, Hlit, Hspaced.
    split; reflexivity.
Qed.

Lemma empty_verdict_witness :
  issues TwoInputs.atmNumber (str "  ")
  = [TwoInputs.msg_short; TwoInputs.msg_format]
  /\ issues AtmInputMask.atmNumber (str "  ")
     = [AtmInputMask.msg_format; AtmInputMask.msg_digits].
Proof.
  destruct (empty_verdict (str "  ")) as (_ & _ & _ & _ & _ & Hblank).
  apply Hblank; [discriminate | reflexivity].
Defined.

(** The claim of C8 as it stands fails on the schema of [two-inputs.tsx].
    The empty string, which the form hands to the schema when the input is
    cleared, gets the "empty" message and two others with it.  A single
    blank is a whitespace-only string, yet the "empty" message is not among
    its issues; the length and format messages are. *)
Lemma empty_verdict_counterexample :
  (blank [] = true
   /\ TwoInputs.handleAtmInputChange []
      = ([], [TwoInputs.msg_empty; TwoInputs.msg_short;
              TwoInputs.msg_format])
   /\ In TwoInputs.msg_short (issues TwoInputs.atmNumber [])
   /\ TwoInputs.msg_short <> TwoInputs.msg_empty)
  /\ (blank (str " ") = true
      /\ issues TwoInputs.atmNumber (str " ")
         = [TwoInputs.msg_short; TwoInputs.msg_format]
      /\ ~ In TwoInputs.msg_empty (issues TwoInputs.atmNumber (str " "))).
Proof.
  split.
  - repeat split; try discriminate. simpl. tauto.
  - repeat split. simpl. intuition discriminate.
Qed.

(** ** The digit-count messages *)

(** C2 - TooShort boundary.  For every string that is neither empty nor all
    whitespace, [validateAtmNumber] returns "ATM number must be 16 digits"
    exactly when the string holds fewer than sixteen digits: fifteen digits
    or fewer are too short, sixteen or more never are.  The zod schemas
    measure something else, the characters left once whitespace and hyphens
    are deleted: the schema of [two-inputs.tsx] raises its length message
    exactly when fewer than fifteen are left, and the schema of the
    react-input-mask variant raises its sixteen-digit message exactly when
    their number is not sixteen. *)
Theorem tooShort_boundary (v : jsstring) :
  blank v = false ->
  (AtmMask.validateAtmNumber v = Some AtmMask.msg_digits
   <-> digit_count v < 16)
  /\ (In TwoInputs.msg_short (issues TwoInputs.atmNumber v)
      <-> length (replace_space_or_hyphen v) < 15)
  /\ (In AtmInputMask.msg_digits (issues AtmInputMask.atmNumber v)
      <-> length (replace_space_or_hyphen v) <> 16).
Proof.
  intros Hb. repeat split.
  - rewrite validateAtmNumber_equation, Hb.
    destruct (Nat.ltb_spec (digit_count v) 16); [trivial|].
    destruct (test_anchored AtmMask.atm_pattern v); discriminate.
  - intros H. rewrite validateAtmNumber_equation, Hb.
    apply Nat.ltb_lt in H. now rewrite H.
  - rewrite two_inputs_issues.
    destruct (Nat.leb_spec 15 (length (replace_space_or_hyphen v)));
      [issue_cases | trivial].
  - intros H. rewrite two_inputs_issues.
    apply Nat.leb_gt in H. rewrite H. issue_cases.
  - rewrite input_mask_issues.
    destruct (Nat.eqb_spec (length (replace_space_or_hyphen v)) 16);
      [issue_cases | trivial].
  - intros H. rewrite input_mask_issues.
    apply Nat.eqb_neq in H. rewrite H. issue_cases.
Qed.

Lemma tooShort_boundary_witness :
  AtmMask.validateAtmNumber (str "1234 - 5678") = Some AtmMask.msg_digits
  /\ In TwoInputs.msg_short (issues TwoInputs.atmNumber (str "1234 - 5678")).
Proof.
  destruct (@tooShort_boundary (str "1234 - 5678") eq_refl) as (H1 & H2 & _).
  split.
  - apply H1. unfold digit_count. simpl. lia.
  - apply H2. simpl. lia.
Defined.

(** The claim of C2 as it stands fails on the schema of [two-inputs.tsx]:
    this string is not blank and holds fifteen digits, yet the only issue
    raised is the format one, not the length one. *)
Lemma tooShort_boundary_counterexample :
  blank (str "1234 - 5678 - 9012 - 345") = false
  /\ digit_count (str "1234 - 5678 - 9012 - 345") = 15
  /\ issues TwoInputs.atmNumber (str "1234 - 5678 - 9012 - 345")
     = [TwoInputs.msg_format]
  /\ ~ In TwoInputs.msg_short
         (issues TwoInputs.atmNumber (str "1234 - 5678 - 9012 - 345")).
Proof.
  repeat split. simpl. intuition discriminate.
Qed.

(** ** Validity needs the count and the pattern *)

Lemma digit_string_not_blank (raw : jsstring) :
  digit_string raw -> raw <> [] -> blank raw = false.
Proof.
  intros Hd Hne. destruct raw as [|c r]; [congruence|].
  inversion_clear Hd as [|? ? Hc Hr].
  unfold blank. simpl. now rewrite (digit_not_whitespace Hc).
Qed.

Lemma digit_string_count (raw : jsstring) :
  digit_string raw -> digit_count raw = length raw.
Proof.
  intros Hd. unfold digit_count.
  now rewrite <- replace_nondigits_filter, (replace_nondigits_id Hd).
Qed.

Lemma raw_digits_fail_pattern (pattern : list atom) (raw : jsstring) :
  length raw = 16 -> length pattern = 25 -> test_anchored pattern raw = false.
Proof.
  intros Hraw Hp. destruct (test_anchored pattern raw) eqn:H; [|reflexivity].
  apply test_anchored_length in H. lia.
Qed.

(** C3 - Conjunction validity.  Each of the three validators accepts a
    string only if the string holds at least sixteen digits and matches the
    grouped pattern; and sixteen raw digits with no separators are rejected
    by each of them with the format message alone. *)
Theorem validity_is_a_conjunction (v raw : jsstring) :
  (AtmMask.validateAtmNumber v = None ->
   16 <= digit_count v /\ test_anchored AtmMask.atm_pattern v = true)
  /\ (issues AtmInputMask.atmNumber v = [] ->
      16 <= digit_count v /\ test_anchored AtmMask.atm_pattern v = true)
  /\ (issues TwoInputs.atmNumber v = [] ->
      16 <= digit_count v /\ test_anchored TwoInputs.atm_pattern v = true)
  /\ (digit_string raw -> length raw = 16 ->
      AtmMask.validateAtmNumber raw = Some AtmMask.msg_format
      /\ issues AtmInputMask.atmNumber raw = [AtmInputMask.msg_format]
      /\ issues TwoInputs.atmNumber raw = [TwoInputs.msg_format]).
Proof.
  split; [|split; [|split]].
  - intros H. apply validateAtmNumber_accepts_iff in H.
    rewrite (atm_pattern_digit_count _ H). split; [lia | exact H].
  - intros H. rewrite input_mask_issues in H.
    destruct (test_anchored AtmMask.atm_pattern v) eqn:Hp.
    + rewrite (atm_pattern_digit_count _ Hp). split; [lia | reflexivity].
    + destruct (is_empty v), (length (replace_space_or_hyphen v) =? 16);
        discriminate.
  - intros H. rewrite two_inputs_issues in H.
    destruct (test_anchored TwoInputs.atm_pattern v) eqn:Hp.
    + rewrite (spaced_atm_pattern_digit_count _ Hp).
      split; [lia | reflexivity].
    + destruct (is_empty v), (15 <=? length (replace_space_or_hyphen v));
        discriminate.
  - intros Hd Hlen.
    assert (Hne : raw <> []) by (destruct raw; discriminate).
    split; [|split].
    + rewrite validateAtmNumber_equation.
      rewrite (digit_string_not_blank Hd Hne).
      rewrite (digit_string_count Hd), Hlen.
      now rewrite raw_digits_fail_pattern.
    + rewrite input_mask_issues, (replace_space_or_hyphen_id Hd), Hlen.
      rewrite raw_digits_fail_pattern by auto.
      now destruct raw.
    + rewrite two_inputs_issues, (replace_space_or_hyphen_id Hd), Hlen.
      rewrite raw_digits_fail_pattern by auto.
      now destruct raw.
Qed.

Lemma validity_is_a_conjunction_witness :
  AtmMask.validateAtmNumber (str "1234567890123456")
  = Some AtmMask.msg_format
  /\ 16 <= digit_count (str "1234 - 5678 - 9012 - 3456").
Proof.
  destruct (validity_is_a_conjunction (str "1234 - 5678 - 9012 - 3456")
              (str "1234567890123456")) as (Hacc & _ & _ & Hraw).
  split.
  - apply Hraw; [repeat constructor | reflexivity].
  - apply Hacc. reflexivity.
Defined.

(** ** The key filters *)

Lemma not_navigation_key (e : KeyboardEvent) :
  is_navigation_key e = false ->
  (keyCode e <> 8 /\ keyCode e <> 9 /\ keyCode e <> 13 /\ keyCode e <> 27
   /\ keyCode e <> 46 /\ ~ (35 <= keyCode e <= 40))%Z.
Proof.
  unfold is_navigation_key, navigation_keys. cbn [existsb].
  intros H.
  repeat (apply orb_false_iff in H; destruct H as [?H H]).
  repeat match goal with
         | H : (_ =? _)%Z = false |- _ => apply Z.eqb_neq in H
         end.
  lia.
Qed.

Lemma not_clipboard_shortcut (e : KeyboardEvent) :
  is_clipboard_shortcut e = false ->
  ctrlKey e = false
  \/ (keyCode e <> 65 /\ keyCode e <> 67 /\ keyCode e <> 86
      /\ keyCode e <> 88 /\ keyCode e <> 90)%Z.
Proof.
  unfold is_clipboard_shortcut. cbn [existsb].
  destruct (ctrlKey e); [|now left]. intros H. right. simpl in H.
  repeat (apply orb_false_iff in H; destruct H as [?H H]).
  repeat match goal with
         | H : (_ =? _)%Z = false |- _ => apply Z.eqb_neq in H
         end.
  lia.
Qed.

Ltac decide_comparisons :=
  rewrite ?Z.geb_leb, ?Z.gtb_ltb;
  repeat match goal with
         | |- context [(?a =? ?b)%Z] =>
             destruct (Z.eqb_spec a b); try lia
         | |- context [(?a <=? ?b)%Z] =>
             destruct (Z.leb_spec a b); try lia
         | |- context [(?a <? ?b)%Z] =>
             destruct (Z.ltb_spec a b); try lia
         end.

Lemma indexOf_control_keys (k : Z) :
  (k <> 8 -> k <> 9 -> k <> 27 -> k <> 13 -> k <> 46 ->
   indexOf [8; 9; 27; 13; 46] k = -1)%Z.
Proof.
  intros. unfold indexOf. cbn [indexOf_from].
  decide_comparisons; try reflexivity.
Qed.

Lemma not_exempt (e : KeyboardEvent) :
  is_navigation_key e = false -> is_clipboard_shortcut e = false ->
  exempt e = false.
Proof.
  intros Hnav Hclip.
  apply not_navigation_key in Hnav. apply not_clipboard_shortcut in Hclip.
  unfold exempt. rewrite indexOf_control_keys by lia.
  destruct Hclip as [Hctrl | Hkeys].
  - rewrite Hctrl. decide_comparisons; try reflexivity.
  - decide_comparisons; destruct (ctrlKey e); try reflexivity.
Qed.

Lemma hook_handleKeyDown_equation (e : KeyboardEvent) :
  AtmMask.handleKeyDown e
  = if exempt e then false
    else if 16 <=? digit_count (target_value e) then true
    else negb (is_digit_key e).
Proof.
  unfold AtmMask.handleKeyDown. cbv zeta. fold (exempt e).
  rewrite replace_nondigits_filter. fold (digit_count (target_value e)).
  destruct (exempt e); [reflexivity|].
  destruct (16 <=? digit_count (target_value e)); [reflexivity|].
  unfold is_digit_key. destruct (shiftKey e); cbn [negb orb andb];
    decide_comparisons; try reflexivity.
Qed.

Lemma input_mask_handleKeyDown_equation (e : KeyboardEvent) :
  AtmInputMask.handleKeyDown e
  = if exempt e then false else negb (is_digit_key e).
Proof.
  unfold AtmInputMask.handleKeyDown. fold (exempt e).
  destruct (exempt e); [reflexivity|].
  unfold is_digit_key. destruct (shiftKey e); cbn [negb orb andb];
    decide_comparisons; try reflexivity.
Qed.

(** C4 - Key-filter cap.  In the [useAtmMask] hook, a keystroke that is
    neither a control or navigation key nor a clipboard shortcut with the
    control key held is suppressed once the field holds sixteen digits,
    digit keys included.  The handler of the react-input-mask variant has no
    such cap: whatever the field holds, it suppresses such a keystroke
    exactly when it is not a digit key. *)
Theorem key_filter_cap (e : KeyboardEvent) :
  is_navigation_key e = false ->
  is_clipboard_shortcut e = false ->
  (16 <= digit_count (target_value e) ->
   AtmMask.handleKeyDown e = true /\ filterKeystroke e = false)
  /\ AtmInputMask.handleKeyDown e = negb (is_digit_key e).
Proof.
  intros Hnav Hclip. pose proof (not_exempt e Hnav Hclip) as Hex.
  split.
  - intros Hcap. unfold filterKeystroke.
    rewrite hook_handleKeyDown_equation, Hex.
    apply Nat.leb_le in Hcap. now rewrite Hcap.
  - now rewrite input_mask_handleKeyDown_equation, Hex.
Qed.

Lemma key_filter_cap_witness :
  AtmMask.handleKeyDown (key 53 (str "1234 - 5678 - 9012 - 3456")) = true
  /\ AtmInputMask.handleKeyDown (key 53 (str "1234 - 5678 - 9012 - 3456"))
     = false.
Proof.
  destruct (@key_filter_cap (key 53 (str "1234 - 5678 - 9012 - 3456"))
              eq_refl eq_refl) as [Hhook Hmask].
  split.
  - apply Hhook. unfold digit_count. simpl. lia.
  - exact Hmask.
Defined.

(** The claim of C4 as it stands fails on the handler of the
    react-input-mask variant: the key [5], no modifier held, on a field that
    already holds sixteen digits, is not suppressed. *)
Lemma key_filter_cap_counterexample :
  is_navigation_key (key 53 (str "1234 - 5678 - 9012 - 3456")) = false
  /\ is_clipboard_shortcut (key 53 (str "1234 - 5678 - 9012 - 3456")) = false
  /\ digit_count (str "1234 - 5678 - 9012 - 3456") = 16
  /\ AtmInputMask.handleKeyDown (key 53 (str "1234 - 5678 - 9012 - 3456"))
     = false.
Proof. repeat split. Qed.

(** Ten of the eleven keys the specification lists pass both handlers,
    whatever the modifiers and whatever the field holds. *)
Lemma control_keys_pass (e : KeyboardEvent) :
  In (keyCode e) [8; 46; 9; 27; 13; 37; 38; 39; 36; 35]%Z ->
  AtmMask.handleKeyDown e = false /\ AtmInputMask.handleKeyDown e = false.
Proof.
  intros Hin.
  rewrite hook_handleKeyDown_equation, input_mask_handleKeyDown_equation.
  assert (Hex : exempt e = true).
  { unfold exempt. simpl in Hin.
    repeat (destruct Hin as [<- | Hin]; [reflexivity|]). contradiction. }
  now rewrite Hex.
Qed.

(** C5 - Navigation keys.  The down arrow (key code 40) falls outside the
    range 35..39 that both handlers exempt: whatever the modifiers and
    whatever the field holds, both handlers suppress it. *)
Theorem arrow_down_is_suppressed (ctrl shift : bool) (value : jsstring) :
  let e := {| keyCode := 40; ctrlKey := ctrl; shiftKey := shift;
              target_value := value |} in
  is_navigation_key e = true
  /\ AtmMask.handleKeyDown e = true
  /\ AtmInputMask.handleKeyDown e = true
  /\ filterKeystroke e = false.
Proof.
  cbv zeta. unfold filterKeystroke.
  rewrite hook_handleKeyDown_equation, input_mask_handleKeyDown_equation.
  assert (Hex : forall c s v,
             exempt {| keyCode := 40; ctrlKey := c; shiftKey := s;
                       target_value := v |} = false)
    by (intros [] ? ?; reflexivity).
  rewrite Hex. cbn [target_value].
  destruct (16 <=? digit_count value), shift; repeat split.
Qed.

(** * Further properties of the code *)

(** ** The formatters as functions of the digits typed *)

Lemma filter_digits_formatGrouped (spec : GroupSpec) (d : jsstring) :
  separator spec = sep ->
  digit_string d ->
  length d <= list_sum (groupLengths spec) ->
  filter is_digit (formatGrouped d spec) = d.
Proof.
  intros Hsep Hd Hlen. unfold formatGrouped.
  rewrite Hsep, <- replace_nondigits_filter, replace_nondigits_join.
  rewrite concat_partition_groups, firstn_all2 by exact Hlen.
  now apply replace_nondigits_id.
Qed.

Lemma firstn_app_firstn (A : Type) (n : nat) (a b : list A) :
  firstn n (firstn n a ++ b) = firstn n (a ++ b).
Proof.
  revert a. induction n as [|n IH]; intros [|x a]; simpl; try reflexivity.
  now rewrite IH.
Qed.

Lemma extractDigits_app_formatGrouped (spec : GroupSpec) (v w : jsstring) :
  separator spec = sep ->
  extractDigits (list_sum (groupLengths spec))
    (formatGrouped (extractDigits (list_sum (groupLengths spec)) v) spec ++ w)
  = extractDigits (list_sum (groupLengths spec)) (v ++ w).
Proof.
  intros Hsep. rewrite !extractDigits_firstn, !filter_app.
  rewrite filter_digits_formatGrouped;
    [ | exact Hsep | rewrite <- extractDigits_firstn;
                     apply extractDigits_digit_string
      | apply firstn_le_length ].
  apply firstn_app_firstn.
Qed.

(** X1 - What is typed after the displayed text.  Formatting the displayed
    text followed by further input gives what formatting the original input
    followed by the same further input gives; with nothing further, each
    formatter leaves its own output unchanged. *)
Theorem formatters_absorb_their_output (v w : jsstring) :
  (TwoInputs.formatAtmNumber (TwoInputs.formatAtmNumber v ++ w)
   = TwoInputs.formatAtmNumber (v ++ w)
   /\ TwoInputs.formatAtmNumber (TwoInputs.formatAtmNumber v)
      = TwoInputs.formatAtmNumber v)
  /\ (AtmMask.formatAtmNumber (AtmMask.formatAtmNumber v ++ w)
      = AtmMask.formatAtmNumber (v ++ w)
      /\ AtmMask.formatAtmNumber (AtmMask.formatAtmNumber v)
         = AtmMask.formatAtmNumber v)
  /\ (TwoInputs.formatAccountNumber (TwoInputs.formatAccountNumber v ++ w)
      = TwoInputs.formatAccountNumber (v ++ w)
      /\ TwoInputs.formatAccountNumber (TwoInputs.formatAccountNumber v)
         = TwoInputs.formatAccountNumber v).
Proof.
  pose proof (@extractDigits_app_formatGrouped atmSpec v w eq_refl) as Hatm.
  pose proof (@extractDigits_app_formatGrouped atmSpec v [] eq_refl) as Hatm0.
  pose proof (@extractDigits_app_formatGrouped accountSpec v w eq_refl)
    as Hacc.
  pose proof (@extractDigits_app_formatGrouped accountSpec v [] eq_refl)
    as Hacc0.
  rewrite !app_nil_r in Hatm0, Hacc0.
  change (list_sum (groupLengths atmSpec)) with 16 in Hatm, Hatm0.
  change (list_sum (groupLengths accountSpec)) with 10 in Hacc, Hacc0.
  rewrite !regex_formatAtmNumber, !cascade_formatAtmNumber,
    !cascade_formatAccountNumber.
  rewrite Hatm, Hatm0, Hacc, Hacc0. repeat split.
Qed.

(** ** Length of the formatted text *)

Lemma extractDigits_length_min (maxDigits : nat) (v : jsstring) :
  length (extractDigits maxDigits v) = Nat.min maxDigits (digit_count v).
Proof. rewrite extractDigits_firstn. apply length_firstn. Qed.

Lemma atm_grouped_length (d : jsstring) :
  length d <= 16 ->
  length (formatGrouped d atmSpec) = atm_formatted_length (length d).
Proof.
  intros H. do 17 (destruct d as [|? d]; [reflexivity|]). simpl in H; lia.
Qed.

Lemma account_grouped_length (d : jsstring) :
  length d <= 10 ->
  length (formatGrouped d accountSpec) = account_formatted_length (length d).
Proof.
  intros H. do 11 (destruct d as [|? d]; [reflexivity|]). simpl in H; lia.
Qed.

Lemma atm_formatted_length_bound (n : nat) :
  n <= 16 ->
  atm_formatted_length n <= 25 /\ (atm_formatted_length n = 25 <-> n = 16).
Proof.
  intros H. do 17 (destruct n as [|n]; [cbv; lia|]). lia.
Qed.

Lemma account_formatted_length_bound (n : nat) :
  n <= 10 ->
  account_formatted_length n <= 16
  /\ (account_formatted_length n = 16 <-> n = 10).
Proof.
  intros H. do 11 (destruct n as [|n]; [cbv; lia|]). lia.
Qed.

(** X2 - Length of the formatted text.  With [n] the number of digits of
    the input, at most sixteen of them counted, both card-number formatters
    return [n + 3 * ((n - 1) / 4)] units: never more than 25, and 25
    exactly when the input holds sixteen digits or more.  The account-number
    formatter, with at most ten digits counted, returns [n], [n + 3] or
    [n + 6] units as [n] is at most 3, at most 6 or more: never more than
    16, and 16 exactly when the input holds ten digits or more. *)
Theorem formatted_length (v : jsstring) :
  (length (TwoInputs.formatAtmNumber v)
   = atm_formatted_length (Nat.min 16 (digit_count v))
   /\ length (AtmMask.formatAtmNumber v)
      = atm_formatted_length (Nat.min 16 (digit_count v))
   /\ length (TwoInputs.formatAtmNumber v) <= 25
   /\ (length (TwoInputs.formatAtmNumber v) = 25 <-> 16 <= digit_count v))
  /\ (length (TwoInputs.formatAccountNumber v)
      = account_formatted_length (Nat.min 10 (digit_count v))
      /\ length (TwoInputs.formatAccountNumber v) <= 16
      /\ (length (TwoInputs.formatAccountNumber v) = 16
          <-> 10 <= digit_count v)).
Proof.
  rewrite regex_formatAtmNumber, cascade_formatAtmNumber,
    cascade_formatAccountNumber.
  rewrite atm_grouped_length, account_grouped_length
    by apply extractDigits_length.
  rewrite !extractDigits_length_min.
  destruct (@atm_formatted_length_bound (Nat.min 16 (digit_count v)))
    as [Hle Hiff]; [lia|].
  destruct (@account_formatted_length_bound (Nat.min 10 (digit_count v)))
    as [Hle' Hiff']; [lia|].
  repeat split; try assumption; intros; lia.
Qed.

(** ** The cap *)

Lemma extractDigits_app_full (maxDigits : nat) (v w : jsstring) :
  maxDigits <= digit_count v ->
  extractDigits maxDigits (v ++ w) = extractDigits maxDigits v.
Proof.
  intros H. rewrite !extractDigits_firstn, filter_app, firstn_app.
  unfold digit_count in H.
  replace (maxDigits - length (filter is_digit v)) with 0 by lia.
  simpl. apply app_nil_r.
Qed.

(** X4 - Nothing past the cap.  Once an input holds sixteen digits, whatever
    follows it has no effect on what the card-number formatters return; the
    same holds of the account-number formatter from ten digits on. *)
Theorem formatters_ignore_input_past_the_cap (v w : jsstring) :
  (16 <= digit_count v ->
   TwoInputs.formatAtmNumber (v ++ w) = TwoInputs.formatAtmNumber v
   /\ AtmMask.formatAtmNumber (v ++ w) = AtmMask.formatAtmNumber v)
  /\ (10 <= digit_count v ->
      TwoInputs.formatAccountNumber (v ++ w)
      = TwoInputs.formatAccountNumber v).
Proof.
  split; intros H.
  - rewrite !regex_formatAtmNumber, !cascade_formatAtmNumber.
    now rewrite (@extractDigits_app_full 16 v w H).
  - rewrite !cascade_formatAccountNumber.
    now rewrite (@extractDigits_app_full 10 v w H).
Qed.

Lemma formatters_ignore_input_past_the_cap_witness :
  TwoInputs.formatAtmNumber (str "1234567890123456" ++ str "789")
  = TwoInputs.formatAtmNumber (str "1234567890123456")
  /\ TwoInputs.formatAccountNumber (str "1234567890123456" ++ str "789")
     = TwoInputs.formatAccountNumber (str "1234567890123456").
Proof.
  destruct (formatters_ignore_input_past_the_cap
              (str "1234567890123456") (str "789")) as [Hatm Hacc].
  split.
  - apply Hatm. unfold digit_count. simpl. lia.
  - apply Hacc. unfold digit_count. simpl. lia.
Defined.

(** ** What is left when blanks and hyphens are deleted *)

Lemma replace_space_or_hyphen_app (a b : jsstring) :
  replace_space_or_hyphen (a ++ b)
  = replace_space_or_hyphen a ++ replace_space_or_hyphen b.
Proof. apply filter_app. Qed.

Lemma replace_space_or_hyphen_join (parts : list jsstring) :
  replace_space_or_hyphen (join sep parts)
  = replace_space_or_hyphen (concat parts).
Proof.
  induction parts as [|p ps IH]; [reflexivity|].
  destruct ps as [|q qs].
  - simpl. now rewrite app_nil_r.
  - change (join sep (p :: q :: qs)) with (p ++ sep ++ join sep (q :: qs)).
    change (concat (p :: q :: qs)) with (p ++ concat (q :: qs)).
    rewrite !replace_space_or_hyphen_app, IH. reflexivity.
Qed.

Lemma replace_space_or_hyphen_formatGrouped (spec : GroupSpec) (d : jsstring) :
  separator spec = sep ->
  digit_string d ->
  length d <= list_sum (groupLengths spec) ->
  replace_space_or_hyphen (formatGrouped d spec) = d.
Proof.
  intros Hsep Hd Hlen. unfold formatGrouped.
  rewrite Hsep, replace_space_or_hyphen_join, concat_partition_groups.
  rewrite firstn_all2 by exact Hlen.
  now apply replace_space_or_hyphen_id.
Qed.

Lemma Forall_join (P : code_unit -> Prop) (parts : list jsstring) :
  Forall P sep -> Forall (Forall P) parts -> Forall P (join sep parts).
Proof.
  intros Hsep Hparts. induction Hparts as [|p ps Hp Hps IH]; [constructor|].
  destruct ps as [|q qs]; [exact Hp|].
  change (join sep (p :: q :: qs)) with (p ++ sep ++ join sep (q :: qs)).
  apply Forall_app. split; [exact Hp|].
  apply Forall_app. split; [exact Hsep | exact IH].
Qed.

Lemma Forall_partition_groups (P : code_unit -> Prop) (lengths : list nat)
    (d : jsstring) :
  Forall P d -> Forall (Forall P) (partition_groups lengths d).
Proof.
  revert d. induction lengths as [|g gs IH]; intros d Hd; [constructor|].
  destruct d as [|c r]; [constructor|].
  change (partition_groups (g :: gs) (c :: r))
    with (firstn g (c :: r) :: partition_groups gs (skipn g (c :: r))).
  constructor.
  - now apply Forall_firstn_keep.
  - apply IH. now apply Forall_skipn_keep.
Qed.

Lemma formatGrouped_alphabet (spec : GroupSpec) (d : jsstring) :
  separator spec = sep ->
  digit_string d ->
  Forall (fun c => is_digit c = true \/ c = 32%N \/ c = 45%N)
         (formatGrouped d spec).
Proof.
  intros Hsep Hd. unfold formatGrouped. rewrite Hsep.
  apply Forall_join.
  - change sep with [32; 45; 32]%N.
    constructor; [right; left; reflexivity|].
    constructor; [right; right; reflexivity|].
    constructor; [right; left; reflexivity|]. constructor.
  - apply Forall_partition_groups.
    eapply Forall_impl; [|exact Hd]. intros c Hc. now left.
Qed.

(** X3 - What the formatted text is made of.  The text a formatter returns
    holds nothing but decimal digits, blanks and hyphens; deleting its
    blanks and hyphens, as the digit indicators and the "Clean" line of the
    pages do, gives back the digits extracted from the input, so the
    indicator of the card number shows the number of digits of the input up
    to sixteen, and that of the account number up to ten. *)
Theorem formatted_text_and_digit_indicators (v : jsstring) :
  (Forall (fun c => is_digit c = true \/ c = 32%N \/ c = 45%N)
          (TwoInputs.formatAtmNumber v)
   /\ Forall (fun c => is_digit c = true \/ c = 32%N \/ c = 45%N)
             (AtmMask.formatAtmNumber v)
   /\ Forall (fun c => is_digit c = true \/ c = 32%N \/ c = 45%N)
             (TwoInputs.formatAccountNumber v))
  /\ (replace_space_or_hyphen (TwoInputs.formatAtmNumber v)
      = extractDigits 16 v
      /\ AtmMask.cleanAtmNumber (AtmMask.formatAtmNumber v)
         = extractDigits 16 v
      /\ replace_space_or_hyphen (TwoInputs.formatAccountNumber v)
         = extractDigits 10 v)
  /\ (TwoInputs.digitsIndicator (TwoInputs.formatAtmNumber v)
      = Nat.min 16 (digit_count v)
      /\ TwoInputs.digitsIndicator (TwoInputs.formatAccountNumber v)
         = Nat.min 10 (digit_count v)).
Proof.
  unfold AtmMask.cleanAtmNumber.
  rewrite regex_formatAtmNumber, cascade_formatAtmNumber,
    cascade_formatAccountNumber.
  pose proof (extractDigits_digit_string 16 v) as Hd16.
  pose proof (extractDigits_digit_string 10 v) as Hd10.
  assert (H16 : replace_space_or_hyphen
                  (formatGrouped (extractDigits 16 v) atmSpec)
                = extractDigits 16 v)
    by (apply replace_space_or_hyphen_formatGrouped;
        [reflexivity | exact Hd16 | apply extractDigits_length]).
  assert (H10 : replace_space_or_hyphen
                  (formatGrouped (extractDigits 10 v) accountSpec)
                = extractDigits 10 v)
    by (apply replace_space_or_hyphen_formatGrouped;
        [reflexivity | exact Hd10 | apply extractDigits_length]).
  split; [|split].
  - repeat split; now apply formatGrouped_alphabet.
  - repeat split; assumption.
  - assert (Hind : forall x, TwoInputs.digitsIndicator x
                             = length (replace_space_or_hyphen x))
      by (intros []; reflexivity).
    rewrite !Hind, H16, H10, !extractDigits_length_min. split; reflexivity.
Qed.

(** ** Patterns on formatted text *)

Lemma digit_count_formatGrouped (spec : GroupSpec) (d : jsstring) :
  separator spec = sep ->
  digit_string d ->
  length d <= list_sum (groupLengths spec) ->
  digit_count (formatGrouped d spec) = length d.
Proof.
  intros Hsep Hd Hlen. unfold digit_count.
  now rewrite filter_digits_formatGrouped.
Qed.

Lemma formatGrouped_nil_iff (spec : GroupSpec) (d : jsstring) :
  separator spec = sep ->
  digit_string d ->
  length d <= list_sum (groupLengths spec) ->
  (formatGrouped d spec = [] <-> d = []).
Proof.
  intros Hsep Hd Hlen. split.
  - intros H. pose proof (@filter_digits_formatGrouped spec d Hsep Hd Hlen) as Hf.
    rewrite H in Hf. simpl in Hf. congruence.
  - intros ->. unfold formatGrouped. now destruct (groupLengths spec).
Qed.

Lemma spaced_atm_pattern_grouped (d : jsstring) :
  digit_string d -> length d = 16 ->
  test_anchored TwoInputs.atm_pattern (formatGrouped d atmSpec) = true.
Proof.
  intros Hd Hlen.
  do 16 (destruct d as [|? d]; [discriminate Hlen|]).
  destruct d; [|discriminate Hlen].
  unfold digit_string in Hd. rewrite Forall_forall in Hd.
  cbv - [is_digit N.eqb N.leb andb orb].
  repeat match goal with
         | |- context [is_digit ?x] => rewrite (Hd x) by (simpl; tauto)
         end.
  reflexivity.
Qed.

Lemma account_pattern_grouped (d : jsstring) :
  digit_string d -> length d = 10 ->
  test_anchored TwoInputs.account_pattern (formatGrouped d accountSpec)
  = true.
Proof.
  intros Hd Hlen.
  do 10 (destruct d as [|? d]; [discriminate Hlen|]).
  destruct d; [|discriminate Hlen].
  unfold digit_string in Hd. rewrite Forall_forall in Hd.
  cbv - [is_digit N.eqb N.leb andb orb].
  repeat match goal with
         | |- context [is_digit ?x] => rewrite (Hd x) by (simpl; tauto)
         end.
  reflexivity.
Qed.

Lemma account_pattern_digit_count (v : jsstring) :
  test_anchored TwoInputs.account_pattern v = true -> digit_count v = 10.
Proof.
  intros H. now rewrite (@test_anchored_digit_count TwoInputs.account_pattern v eq_refl H).
Qed.

Lemma pattern_on_grouped (pattern : list atom) (spec : GroupSpec)
    (d : jsstring) :
  separator spec = sep ->
  digit_string d ->
  length d <= list_sum (groupLengths spec) ->
  forallb literal_not_digit pattern = true ->
  length d <> digit_atoms pattern ->
  test_anchored pattern (formatGrouped d spec) = false.
Proof.
  intros Hsep Hd Hlen Hlit Hne.
  destruct (test_anchored pattern (formatGrouped d spec)) eqn:H;
    [|reflexivity].
  apply (test_anchored_digit_count _ _ Hlit) in H.
  rewrite (@digit_count_formatGrouped spec d Hsep Hd Hlen) in H. contradiction.
Qed.

(** ** Validation of formatted text *)

Lemma is_empty_blank_formatGrouped (spec : GroupSpec) (d : jsstring) :
  separator spec = sep ->
  digit_string d ->
  length d <= list_sum (groupLengths spec) ->
  is_empty (formatGrouped d spec) = (length d =? 0)
  /\ blank (formatGrouped d spec) = (length d =? 0).
Proof.
  intros Hsep Hd Hlen.
  pose proof (@formatGrouped_nil_iff spec d Hsep Hd Hlen) as Hnil.
  pose proof (@digit_count_formatGrouped spec d Hsep Hd Hlen) as Hcount.
  destruct d as [|c r].
  - rewrite (proj2 Hnil eq_refl). split; reflexivity.
  - simpl length in *. change (S (length r) =? 0) with false. split.
    + destruct (formatGrouped (c :: r) spec) eqn:E; [|reflexivity].
      destruct Hnil as [Hnil _]. now specialize (Hnil eq_refl).
    + destruct (blank (formatGrouped (c :: r) spec)) eqn:E; [|reflexivity].
      apply blank_no_digits in E. lia.
Qed.

Lemma atm_formatted_facts (v : jsstring) :
  let text := formatGrouped (extractDigits 16 v) atmSpec in
  is_empty text = (digit_count v =? 0)
  /\ blank text = (digit_count v =? 0)
  /\ digit_count text = Nat.min 16 (digit_count v)
  /\ length (replace_space_or_hyphen text) = Nat.min 16 (digit_count v)
  /\ test_anchored TwoInputs.atm_pattern text = (16 <=? digit_count v)
  /\ test_anchored AtmMask.atm_pattern text = (16 <=? digit_count v).
Proof.
  cbv zeta.
  pose proof (extractDigits_digit_string 16 v) as Hd.
  pose proof (extractDigits_length 16 v) as Hlen.
  pose proof (extractDigits_length_min 16 v) as Hmin.
  destruct (@is_empty_blank_formatGrouped atmSpec (extractDigits 16 v)
              eq_refl Hd Hlen) as [He Hb].
  rewrite He, Hb, Hmin.
  rewrite (@digit_count_formatGrouped atmSpec _ eq_refl Hd Hlen), Hmin.
  rewrite (@replace_space_or_hyphen_formatGrouped atmSpec _ eq_refl Hd Hlen).
  rewrite Hmin.
  assert (Hz : (Nat.min 16 (digit_count v) =? 0) = (digit_count v =? 0)).
  { destruct (Nat.eqb_spec (digit_count v) 0) as [E|E].
    - now rewrite E.
    - apply Nat.eqb_neq. lia. }
  rewrite Hz. repeat split.
  - destruct (Nat.leb_spec 16 (digit_count v)).
    + apply spaced_atm_pattern_grouped; [exact Hd | lia].
    + apply pattern_on_grouped; try reflexivity; try assumption.
      change (digit_atoms TwoInputs.atm_pattern) with 16. lia.
  - destruct (Nat.leb_spec 16 (digit_count v)).
    + apply grouped_atm_pattern; [exact Hd | lia].
    + apply pattern_on_grouped; try reflexivity; try assumption.
      change (digit_atoms AtmMask.atm_pattern) with 16. lia.
Qed.

Lemma account_formatted_facts (v : jsstring) :
  let text := formatGrouped (extractDigits 10 v) accountSpec in
  is_empty text = (digit_count v =? 0)
  /\ length (replace_space_or_hyphen text) = Nat.min 10 (digit_count v)
  /\ test_anchored TwoInputs.account_pattern text = (10 <=? digit_count v).
Proof.
  cbv zeta.
  pose proof (extractDigits_digit_string 10 v) as Hd.
  pose proof (extractDigits_length 10 v) as Hlen.
  pose proof (extractDigits_length_min 10 v) as Hmin.
  destruct (@is_empty_blank_formatGrouped accountSpec (extractDigits 10 v)
              eq_refl Hd Hlen) as [He Hb].
  rewrite He, Hmin.
  rewrite (@replace_space_or_hyphen_formatGrouped accountSpec _ eq_refl
             Hd Hlen).
  rewrite Hmin.
  assert (Hz : (Nat.min 10 (digit_count v) =? 0) = (digit_count v =? 0)).
  { destruct (Nat.eqb_spec (digit_count v) 0) as [E|E].
    - now rewrite E.
    - apply Nat.eqb_neq. lia. }
  rewrite Hz. repeat split.
  destruct (Nat.leb_spec 10 (digit_count v)).
  - apply account_pattern_grouped; [exact Hd | lia].
  - apply pattern_on_grouped; try reflexivity; try assumption.
    change (digit_atoms TwoInputs.account_pattern) with 10. lia.
Qed.

(** X5 - The card-number field after a change.  [handleAtmInputChange]
    stores the formatted input and validates it with [formSchema]: with no
    digit in the input all three messages are raised; with one to fourteen
    digits the length and format messages; with fifteen digits the format
    message alone; with sixteen digits or more none.  The field is valid
    exactly when the input holds at least sixteen digits. *)
Theorem handleAtmInputChange_outcome (v : jsstring) :
  fst (TwoInputs.handleAtmInputChange v) = TwoInputs.formatAtmNumber v
  /\ snd (TwoInputs.handleAtmInputChange v)
     = (if digit_count v =? 0 then [TwoInputs.msg_empty] else [])
       ++ (if 15 <=? digit_count v then [] else [TwoInputs.msg_short])
       ++ (if 16 <=? digit_count v then [] else [TwoInputs.msg_format])
  /\ (snd (TwoInputs.handleAtmInputChange v) = [] <-> 16 <= digit_count v).
Proof.
  unfold TwoInputs.handleAtmInputChange. cbv zeta. cbn [fst snd].
  rewrite two_inputs_issues, cascade_formatAtmNumber.
  destruct (atm_formatted_facts v) as (He & _ & _ & Hs & Hp & _).
  rewrite He, Hs, Hp.
  assert (Hm : (15 <=? Nat.min 16 (digit_count v))
               = (15 <=? digit_count v)).
  { destruct (Nat.leb_spec 15 (digit_count v)).
    - apply Nat.leb_le. lia.
    - apply Nat.leb_gt. lia. }
  rewrite Hm. split; [reflexivity|]. split; [reflexivity|].
  destruct (Nat.eqb_spec (digit_count v) 0),
    (Nat.leb_spec 15 (digit_count v)), (Nat.leb_spec 16 (digit_count v));
    cbn [app]; split; intros; try discriminate; try lia; reflexivity.
Qed.

(** X6 - The account-number field after a change.
    [handleAccountInputChange] stores the formatted input and validates it
    with [formSchema]: with no digit all three messages are raised, with
    one to nine digits the length and format messages, with ten digits or
    more none.  The field is valid exactly when the input holds at least
    ten digits. *)
Theorem handleAccountInputChange_outcome (v : jsstring) :
  fst (TwoInputs.handleAccountInputChange v) = TwoInputs.formatAccountNumber v
  /\ snd (TwoInputs.handleAccountInputChange v)
     = (if digit_count v =? 0 then [TwoInputs.msg_account_empty] else [])
       ++ (if 10 <=? digit_count v
           then []
           else [TwoInputs.msg_account_short; TwoInputs.msg_account_format])
  /\ (snd (TwoInputs.handleAccountInputChange v) = []
      <-> 10 <= digit_count v).
Proof.
  unfold TwoInputs.handleAccountInputChange. cbv zeta. cbn [fst snd].
  unfold TwoInputs.accountNumber. rewrite issues_three.
  cbn [passes message zmin]. rewrite length_ge_1.
  rewrite cascade_formatAccountNumber.
  destruct (account_formatted_facts v) as (He & Hs & Hp).
  rewrite He, Hs, Hp.
  assert (Hm : (10 <=? Nat.min 10 (digit_count v))
               = (10 <=? digit_count v)).
  { destruct (Nat.leb_spec 10 (digit_count v)).
    - apply Nat.leb_le. lia.
    - apply Nat.leb_gt. lia. }
  rewrite Hm. split; [reflexivity|].
  destruct (Nat.eqb_spec (digit_count v) 0),
    (Nat.leb_spec 10 (digit_count v));
    cbn [app negb]; repeat split; intros; try discriminate; try lia.
Qed.

Lemma validateAtmNumber_formatted_equation (v : jsstring) :
  AtmMask.validateAtmNumber (AtmMask.formatAtmNumber v)
  = (if digit_count v =? 0 then Some AtmMask.msg_required
     else if digit_count v <? 16 then Some AtmMask.msg_digits
     else None).
Proof.
  rewrite validateAtmNumber_equation, regex_formatAtmNumber.
  destruct (atm_formatted_facts v) as (_ & Hb & Hc & _ & _ & Hp).
  rewrite Hb, Hc, Hp.
  destruct (Nat.eqb_spec (digit_count v) 0) as [E|E]; [reflexivity|].
  destruct (Nat.ltb_spec (digit_count v) 16) as [L|L].
  - replace (Nat.min 16 (digit_count v) <? 16) with true
      by (symmetry; apply Nat.ltb_lt; lia).
    reflexivity.
  - replace (Nat.min 16 (digit_count v) <? 16) with false
      by (symmetry; apply Nat.ltb_ge; lia).
    replace (16 <=? digit_count v) with true
      by (symmetry; apply Nat.leb_le; lia).
    reflexivity.
Qed.

(** X7 - Submitting formatted text in the hook's form.  On what
    [formatAtmNumber] returns, [validateAtmNumber] answers "required" when
    the input has no digit, "must be 16 digits" when it has one to fifteen,
    and [null] when it has sixteen or more: the format message is never the
    answer on formatted text. *)
Theorem validateAtmNumber_on_formatted (v : jsstring) :
  AtmMask.validateAtmNumber (AtmMask.formatAtmNumber v)
  = (if digit_count v =? 0 then Some AtmMask.msg_required
     else if digit_count v <? 16 then Some AtmMask.msg_digits
     else None)
  /\ AtmMask.validateAtmNumber (AtmMask.formatAtmNumber v)
     <> Some AtmMask.msg_format.
Proof.
  rewrite validateAtmNumber_formatted_equation. split; [reflexivity|].
  destruct (digit_count v =? 0); [discriminate|].
  destruct (digit_count v <? 16); discriminate.
Qed.

(** ** The length checks of the schemas and the clean number *)

Lemma test_anchored_stripped (pattern : list atom) (s : jsstring) :
  forallb literal_is_separator pattern = true ->
  test_anchored pattern s = true ->
  replace_space_or_hyphen s = filter is_digit s.
Proof.
  unfold replace_space_or_hyphen, replace_all_with_empty.
  revert s. induction pattern as [|a p IH]; intros [|c r]; simpl;
    try discriminate; [reflexivity|].
  intros Hp H. apply andb_prop in Hp. destruct Hp as [Ha Hp].
  apply andb_prop in H. destruct H as [Hc H].
  specialize (IH r Hp H).
  destruct a as [| |l]; simpl in Hc.
  - rewrite Hc, (digit_not_whitespace Hc), (digit_not_hyphen Hc). simpl.
    now rewrite IH.
  - rewrite Hc, (whitespace_not_digit _ Hc). simpl. exact IH.
  - apply N.eqb_eq in Hc. subst c. simpl in Ha. rewrite Ha. simpl.
    destruct (is_digit l) eqn:Hl; [|exact IH].
    rewrite (digit_not_whitespace Hl), (digit_not_hyphen Hl) in Ha.
    discriminate.
Qed.

Lemma pattern_separators :
  forallb literal_is_separator AtmMask.atm_pattern = true
  /\ forallb literal_is_separator TwoInputs.atm_pattern = true
  /\ forallb literal_is_separator TwoInputs.account_pattern = true.
Proof. repeat split. Qed.

Lemma test_anchored_nonempty (pattern : list atom) (s : jsstring) :
  pattern <> [] -> test_anchored pattern s = true -> is_empty s = false.
Proof.
  intros Hp H. destruct s as [|c r]; [|reflexivity].
  destruct pattern; [congruence | discriminate].
Qed.

(** X8 - The patterns decide validity alone.  In each zod schema of the
    card and account numbers, a string that matches the pattern passes the
    other two checks as well, so the schema accepts a string exactly when
    the string matches its pattern; the [min(1)] and length checks only
    choose which messages a rejected string gets. *)
Theorem schema_accepts_iff_pattern (v : jsstring) :
  (issues TwoInputs.atmNumber v = []
   <-> test_anchored TwoInputs.atm_pattern v = true)
  /\ (issues TwoInputs.accountNumber v = []
      <-> test_anchored TwoInputs.account_pattern v = true)
  /\ (issues AtmInputMask.atmNumber v = []
      <-> test_anchored AtmMask.atm_pattern v = true).
Proof.
  destruct pattern_separators as (Hs1 & Hs2 & Hs3).
  split; [|split].
  - rewrite two_inputs_issues. split.
    + destruct (test_anchored TwoInputs.atm_pattern v); [reflexivity|].
      destruct (is_empty v), (15 <=? length (replace_space_or_hyphen v));
        discriminate.
    + intros H.
      rewrite (test_anchored_stripped _ _ Hs2 H).
      pose proof (spaced_atm_pattern_digit_count _ H) as Hc.
      unfold digit_count in Hc. rewrite Hc, H.
      now rewrite (@test_anchored_nonempty TwoInputs.atm_pattern v).
  - unfold TwoInputs.accountNumber. rewrite issues_three.
    cbn [passes message zmin]. rewrite length_ge_1. split.
    + destruct (test_anchored TwoInputs.account_pattern v); [reflexivity|].
      destruct (is_empty v), (10 <=? length (replace_space_or_hyphen v));
        discriminate.
    + intros H.
      rewrite (test_anchored_stripped _ _ Hs3 H).
      pose proof (account_pattern_digit_count _ H) as Hc.
      unfold digit_count in Hc. rewrite Hc, H.
      now rewrite (@test_anchored_nonempty TwoInputs.account_pattern v).
  - rewrite input_mask_issues. split.
    + destruct (test_anchored AtmMask.atm_pattern v); [reflexivity|].
      destruct (is_empty v), (length (replace_space_or_hyphen v) =? 16);
        discriminate.
    + intros H.
      rewrite (test_anchored_stripped _ _ Hs1 H).
      pose proof (atm_pattern_digit_count _ H) as Hc.
      unfold digit_count in Hc. rewrite Hc, H.
      now rewrite (@test_anchored_nonempty AtmMask.atm_pattern v).
Qed.

Lemma accepted_clean_number (v : jsstring) :
  test_anchored AtmMask.atm_pattern v = true ->
  replace_space_or_hyphen v = filter is_digit v
  /\ digit_string (replace_space_or_hyphen v)
  /\ length (replace_space_or_hyphen v) = 16
  /\ AtmMask.formatAtmNumber (replace_space_or_hyphen v) = v.
Proof.
  intros H.
  rewrite (test_anchored_stripped _ _ (proj1 pattern_separators) H).
  pose proof (atm_pattern_digit_count _ H) as Hc. unfold digit_count in Hc.
  assert (Hd : digit_string (filter is_digit v))
    by (rewrite <- replace_nondigits_filter;
        apply replace_nondigits_digits).
  repeat split; try assumption.
  rewrite regex_formatAtmNumber, extractDigits_id by (auto; lia).
  symmetry. now apply atm_pattern_grouped.
Qed.

(** X9 - The clean number of an accepted value.  When [validateAtmNumber]
    accepts the field's value, the [cleanAtmNumber] that [handleSubmit]
    logs is the sixteen digits of the value, in order, and formatting it
    gives the value back; the same holds of the clean number [onSubmit]
    computes in the react-input-mask variant once its schema accepts. *)
Theorem clean_number_of_accepted_value (v : jsstring) :
  (AtmMask.validateAtmNumber v = None ->
   AtmMask.cleanAtmNumber v = filter is_digit v
   /\ digit_string (AtmMask.cleanAtmNumber v)
   /\ length (AtmMask.cleanAtmNumber v) = 16
   /\ AtmMask.formatAtmNumber (AtmMask.cleanAtmNumber v) = v)
  /\ (issues AtmInputMask.atmNumber v = [] ->
      AtmInputMask.cleanAtmNumber v = filter is_digit v
      /\ digit_string (AtmInputMask.cleanAtmNumber v)
      /\ length (AtmInputMask.cleanAtmNumber v) = 16
      /\ AtmMask.formatAtmNumber (AtmInputMask.cleanAtmNumber v) = v).
Proof.
  pose proof (@accepted_clean_number v) as Hpat.
  split; intros H; apply Hpat.
  - now apply validateAtmNumber_accepts_iff.
  - rewrite input_mask_issues in H.
    destruct (test_anchored AtmMask.atm_pattern v); [reflexivity|].
    destruct (is_empty v), (length (replace_space_or_hyphen v) =? 16);
      discriminate.
Qed.

Lemma clean_number_of_accepted_value_witness :
  AtmMask.cleanAtmNumber (str "1234 - 5678 - 9012 - 3456")
  = str "1234567890123456"
  /\ AtmInputMask.cleanAtmNumber (str "1234 - 5678 - 9012 - 3456")
     = str "1234567890123456".
Proof.
  destruct (clean_number_of_accepted_value (str "1234 - 5678 - 9012 - 3456"))
    as [Hhook Hmask].
  destruct (Hhook eq_refl) as [H1 _]. destruct (Hmask eq_refl) as [H2 _].
  exact (conj H1 H2).
Defined.

(** ** Which keys pass the handlers *)

Lemma exempt_iff (e : KeyboardEvent) :
  exempt e = true
  <-> In (keyCode e) [8; 9; 27; 13; 46]%Z
      \/ (35 <= keyCode e <= 39)%Z
      \/ (ctrlKey e = true /\ In (keyCode e) [65; 67; 86; 88; 90]%Z).
Proof.
  destruct e as [k ctrl shift value]. unfold exempt, indexOf.
  cbn [indexOf_from keyCode ctrlKey In]. rewrite Z.geb_leb.
  destruct (Z.eqb_spec 8 k); [subst; cbn; intuition lia|].
  destruct (Z.eqb_spec 9 k); [subst; cbn; intuition lia|].
  destruct (Z.eqb_spec 27 k); [subst; cbn; intuition lia|].
  destruct (Z.eqb_spec 13 k); [subst; cbn; intuition lia|].
  destruct (Z.eqb_spec 46 k); [subst; cbn; intuition lia|].
  change (negb (-1 =? -1)%Z) with false. cbn [orb].
  destruct (Z.leb_spec 35 k), (Z.leb_spec k 39); cbn [andb];
    rewrite ?orb_true_r, ?orb_false_r;
    try solve [intuition lia];
    destruct ctrl; rewrite ?andb_true_r, ?andb_false_r; cbn [orb];
    try solve [intuition (try lia; try discriminate)];
    destruct (Z.eqb_spec k 65), (Z.eqb_spec k 67), (Z.eqb_spec k 86),
      (Z.eqb_spec k 88), (Z.eqb_spec k 90); cbn [orb];
    intuition (try lia; try discriminate).
Qed.

Lemma exempt_false_iff (e : KeyboardEvent) :
  exempt e = false
  <-> ~ (In (keyCode e) [8; 9; 27; 13; 46]%Z
         \/ (35 <= keyCode e <= 39)%Z
         \/ (ctrlKey e = true /\ In (keyCode e) [65; 67; 86; 88; 90]%Z)).
Proof.
  rewrite <- exempt_iff. destruct (exempt e); split; congruence.
Qed.

(** X10 - The keys that work on a full field.  Once the field holds sixteen
    digits, the hook's [handleKeyDown] lets a keystroke through exactly when
    it is backspace, tab, enter, escape or delete, or has a key code from 35
    to 39 (end, home, left, up, right), or is A, C, V, X or Z with the
    control key held; every other keystroke is suppressed. *)
Theorem keys_on_a_full_field (e : KeyboardEvent) :
  16 <= digit_count (target_value e) ->
  (AtmMask.handleKeyDown e = false
   <-> In (keyCode e) [8; 9; 27; 13; 46]%Z
       \/ (35 <= keyCode e <= 39)%Z
       \/ (ctrlKey e = true /\ In (keyCode e) [65; 67; 86; 88; 90]%Z)).
Proof.
  intros Hcap. rewrite <- exempt_iff, hook_handleKeyDown_equation.
  apply Nat.leb_le in Hcap. rewrite Hcap.
  destruct (exempt e); split; congruence.
Qed.

Lemma keys_on_a_full_field_witness :
  AtmMask.handleKeyDown (key 8 (str "1234 - 5678 - 9012 - 3456")) = false.
Proof.
  apply (@keys_on_a_full_field (key 8 (str "1234 - 5678 - 9012 - 3456"))).
  - unfold digit_count. simpl. lia.
  - left. simpl. tauto.
Defined.

(** X11 - Letter keys.  A keystroke with a key code from 65 to 90, the
    letters, passes either handler exactly when the control key is held and
    the letter is A, C, V, X or Z: a plain letter is always suppressed, and
    so is every other control-letter combination. *)
Theorem letter_keys (e : KeyboardEvent) :
  (65 <= keyCode e <= 90)%Z ->
  (AtmMask.handleKeyDown e = false
   <-> ctrlKey e = true /\ In (keyCode e) [65; 67; 86; 88; 90]%Z)
  /\ (AtmInputMask.handleKeyDown e = false
      <-> ctrlKey e = true /\ In (keyCode e) [65; 67; 86; 88; 90]%Z).
Proof.
  intros Hk.
  rewrite hook_handleKeyDown_equation, input_mask_handleKeyDown_equation.
  assert (Hdigit : is_digit_key e = false).
  { unfold is_digit_key.
    destruct (Z.leb_spec 48 (keyCode e)), (Z.leb_spec (keyCode e) 57),
      (Z.leb_spec 96 (keyCode e)), (Z.leb_spec (keyCode e) 105);
      try lia; now rewrite ?andb_false_r. }
  rewrite Hdigit. cbn [negb].
  destruct (exempt e) eqn:Hex.
  - apply exempt_iff in Hex. cbn [In] in *. intuition lia.
  - apply exempt_false_iff in Hex. cbn [In] in *.
    destruct (16 <=? digit_count (target_value e));
      intuition (try discriminate; try lia).
Qed.

Lemma letter_keys_witness :
  AtmMask.handleKeyDown
    {| keyCode := 86; ctrlKey := true; shiftKey := false;
       target_value := str "1234" |} = false.
Proof.
  apply (@letter_keys {| keyCode := 86; ctrlKey := true; shiftKey := false;
                         target_value := str "1234" |}).
  - simpl. lia.
  - split; [reflexivity | simpl; tauto].
Defined.

(** X12 - The two handlers compared.  While the field holds fewer than
    sixteen digits the hook's [handleKeyDown] and that of the
    react-input-mask variant treat every keystroke alike; whatever the field
    holds, a keystroke the latter suppresses is suppressed by the hook as
    well. *)
Theorem handlers_agree_below_the_cap (e : KeyboardEvent) :
  (digit_count (target_value e) < 16 ->
   AtmMask.handleKeyDown e = AtmInputMask.handleKeyDown e)
  /\ (AtmInputMask.handleKeyDown e = true -> AtmMask.handleKeyDown e = true).
Proof.
  rewrite hook_handleKeyDown_equation, input_mask_handleKeyDown_equation.
  split.
  - intros H. apply Nat.leb_gt in H. now rewrite H.
  - destruct (exempt e); [discriminate|].
    intros ->. now destruct (16 <=? digit_count (target_value e)).
Qed.

Lemma handlers_agree_below_the_cap_witness :
  AtmMask.handleKeyDown (key 65 (str "1234 - 5"))
  = AtmInputMask.handleKeyDown (key 65 (str "1234 - 5"))
  /\ AtmMask.handleKeyDown (key 65 (str "1234 - 5")) = true.
Proof.
  destruct (handlers_agree_below_the_cap (key 65 (str "1234 - 5")))
    as [Hbelow Hstrict].
  split.
  - apply Hbelow. unfold digit_count. simpl. lia.
  - apply Hstrict. reflexivity.
Defined.

(** X13 - Digit keys.  A main-row digit key (key codes 48 to 57) is
    suppressed by the react-input-mask handler exactly when shift is held,
    and by the hook exactly when shift is held or the field already holds
    sixteen digits.  A numeric-keypad digit (key codes 96 to 105) passes the
    former always and the latter until the field holds sixteen digits,
    whatever the modifiers. *)
Theorem digit_keys (e : KeyboardEvent) :
  ((48 <= keyCode e <= 57)%Z ->
   AtmInputMask.handleKeyDown e = shiftKey e
   /\ AtmMask.handleKeyDown e
      = (16 <=? digit_count (target_value e)) || shiftKey e)
  /\ ((96 <= keyCode e <= 105)%Z ->
      AtmInputMask.handleKeyDown e = false
      /\ AtmMask.handleKeyDown e = (16 <=? digit_count (target_value e))).
Proof.
  rewrite hook_handleKeyDown_equation, input_mask_handleKeyDown_equation.
  split; intros Hk.
  - assert (Hex : exempt e = false)
      by (apply exempt_false_iff; cbn [In]; intuition lia).
    assert (Hd : is_digit_key e = negb (shiftKey e)).
    { unfold is_digit_key.
      destruct (Z.leb_spec 48 (keyCode e)), (Z.leb_spec (keyCode e) 57),
        (Z.leb_spec 96 (keyCode e)), (Z.leb_spec (keyCode e) 105);
        try lia; now destruct (shiftKey e). }
    rewrite Hex, Hd, negb_involutive.
    now destruct (16 <=? digit_count (target_value e)).
  - assert (Hex : exempt e = false)
      by (apply exempt_false_iff; cbn [In]; intuition lia).
    assert (Hd : is_digit_key e = true).
    { unfold is_digit_key.
      destruct (Z.leb_spec 48 (keyCode e)), (Z.leb_spec (keyCode e) 57),
        (Z.leb_spec 96 (keyCode e)), (Z.leb_spec (keyCode e) 105);
        try lia; now destruct (shiftKey e). }
    rewrite Hex, Hd. cbn [negb].
    now destruct (16 <=? digit_count (target_value e)).
Qed.

Lemma digit_keys_witness :
  AtmInputMask.handleKeyDown
    {| keyCode := 52; ctrlKey := false; shiftKey := true;
       target_value := str "12" |} = true
  /\ AtmMask.handleKeyDown
       {| keyCode := 100; ctrlKey := false; shiftKey := true;
          target_value := str "12" |} = false.
Proof.
  split.
  - apply (proj1 (digit_keys {| keyCode := 52; ctrlKey := false;
                                shiftKey := true;
                                target_value := str "12" |})).
    simpl. lia.
  - apply (proj2 (digit_keys {| keyCode := 100; ctrlKey := false;
                                shiftKey := true;
                                target_value := str "12" |})).
    simpl. lia.
Defined.

(** ** The guard of the react-input-mask variant *)

Lemma slice_drop_last_snoc (s : jsstring) :
  s <> [] -> s = slice_drop_last s ++ [last s 0%N].
Proof.
  intros Hne. unfold slice_drop_last.
  rewrite Nat.sub_1_r, <- removelast_firstn_len.
  now apply app_removelast_last.
Qed.

Lemma digit_count_app (a b : jsstring) :
  digit_count (a ++ b) = digit_count a + digit_count b.
Proof. unfold digit_count. now rewrite filter_app, length_app. Qed.

(** X14 - The guard drops one unit, no more.  [beforeMaskedStateChange]
    returns the state it is given when the value holds at most sixteen
    digits; otherwise it keeps the other fields and removes the last unit of
    the value, and only that one.  So the digit count falls by one at most:
    seventeen digits ending in a digit become sixteen, but a value with
    eighteen digits or more still holds more than sixteen afterwards. *)
Theorem beforeMaskedStateChange_drops_one_unit (A : Type)
    (nextState : AtmInputMask.MaskState A) :
  let result := AtmInputMask.beforeMaskedStateChange nextState in
  AtmInputMask.others result = AtmInputMask.others nextState
  /\ (digit_count (AtmInputMask.value nextState) <= 16 ->
      result = nextState)
  /\ (16 < digit_count (AtmInputMask.value nextState) ->
      AtmInputMask.value nextState
      = AtmInputMask.value result
        ++ [last (AtmInputMask.value nextState) 0%N])
  /\ digit_count (AtmInputMask.value nextState) - 1
     <= digit_count (AtmInputMask.value result)
     <= digit_count (AtmInputMask.value nextState)
  /\ (digit_count (AtmInputMask.value nextState) = 17 ->
      is_digit (last (AtmInputMask.value nextState) 0%N) = true ->
      digit_count (AtmInputMask.value result) = 16)
  /\ (18 <= digit_count (AtmInputMask.value nextState) ->
      16 < digit_count (AtmInputMask.value result)).
Proof.
  destruct nextState as [v o]. cbv zeta.
  unfold AtmInputMask.beforeMaskedStateChange. cbv zeta.
  cbn [AtmInputMask.value AtmInputMask.others].
  rewrite replace_nondigits_filter. fold (digit_count v).
  destruct (Nat.ltb_spec 16 (digit_count v)) as [Hover | Hfine];
    cbn [AtmInputMask.value AtmInputMask.others].
  - assert (Hne : v <> []) by (intros ->; cbv in Hover; lia).
    pose proof (slice_drop_last_snoc Hne) as Hsnoc.
    pose proof (f_equal digit_count Hsnoc) as Hcount.
    rewrite digit_count_app in Hcount.
    unfold digit_count at 3 in Hcount. cbn [filter] in Hcount.
    destruct (is_digit (last v 0%N)) eqn:Hlast; cbn [length] in Hcount.
    + repeat split; intros; try assumption; lia.
    + repeat split; intros; try assumption; try lia; congruence.
  - repeat split; intros; lia.
Qed.

Lemma beforeMaskedStateChange_drops_one_unit_witness :
  AtmInputMask.value
    (AtmInputMask.beforeMaskedStateChange
       {| AtmInputMask.value := str "1234 - 5678 - 9012 - 34567";
          AtmInputMask.others := tt |})
  = str "1234 - 5678 - 9012 - 3456".
Proof.
  pose proof (@beforeMaskedStateChange_drops_one_unit unit
                {| AtmInputMask.value := str "1234 - 5678 - 9012 - 34567";
                   AtmInputMask.others := tt |}) as H.
  cbv zeta in H. destruct H as (_ & _ & Hsnoc & _).
  assert (Hover : 16 < digit_count (str "1234 - 5678 - 9012 - 34567"))
    by (unfold digit_count; simpl; lia).
  specialize (Hsnoc Hover).
  apply (app_inj_tail_iff
           (AtmInputMask.value
              (AtmInputMask.beforeMaskedStateChange
                 {| AtmInputMask.value := str "1234 - 5678 - 9012 - 34567";
                    AtmInputMask.others := tt |}))
           (str "1234 - 5678 - 9012 - 3456") 55%N 55%N).
  symmetry. exact Hsnoc.
Defined.

(** ** The hook's form, event after event *)

Lemma hook_format_idempotent (v : jsstring) :
  AtmMask.formatAtmNumber (AtmMask.formatAtmNumber v)
  = AtmMask.formatAtmNumber v.
Proof.
  rewrite !regex_formatAtmNumber.
  pose proof (@extractDigits_app_formatGrouped atmSpec v [] eq_refl) as H.
  rewrite !app_nil_r in H.
  change (list_sum (groupLengths atmSpec)) with 16 in H. now rewrite H.
Qed.

Lemma validateAtmNumber_falsy (v : jsstring) :
  truthy (AtmMask.validateAtmNumber v) = false ->
  AtmMask.validateAtmNumber v = None.
Proof.
  rewrite validateAtmNumber_equation.
  destruct (blank v); [discriminate|].
  destruct (digit_count v <? 16); [discriminate|].
  destruct (test_anchored AtmMask.atm_pattern v); [reflexivity|discriminate].
Qed.

Lemma react_keeps_page_ok (p : AtmMask.Page) (ev : AtmMask.Event) :
  page_ok p -> page_ok (AtmMask.react p ev).
Proof.
  intros (Hfmt & Herr & Hmsg & Hsub & Hfly & Hlog). unfold page_ok.
  destruct p as [[atm err sub] fly log].
  cbn [AtmMask.form AtmMask.inFlight AtmMask.logged AtmMask.atmNumber
       AtmMask.error AtmMask.isSubmitting] in *.
  destruct ev as [raw | | thrown]; cbn [AtmMask.react AtmMask.form
    AtmMask.inFlight AtmMask.logged AtmMask.isSubmitting].
  - unfold AtmMask.handleAtmChange, AtmMask.handleAtmNumberChange.
    cbv zeta. cbn [AtmMask.atmNumber AtmMask.error AtmMask.isSubmitting].
    repeat split; try tauto.
    + apply hook_format_idempotent.
    + destruct (truthy err); [discriminate | exact Herr].
    + destruct Hmsg as [-> | ->]; now left.
  - destruct sub.
    + cbn [AtmMask.form AtmMask.inFlight AtmMask.logged AtmMask.atmNumber
           AtmMask.error AtmMask.isSubmitting]. tauto.
    + unfold AtmMask.handleSubmit_begin. cbv zeta.
      cbn [AtmMask.atmNumber AtmMask.error AtmMask.isSubmitting].
      destruct (truthy (AtmMask.validateAtmNumber atm)) eqn:Htruthy;
        cbn [AtmMask.form AtmMask.inFlight AtmMask.logged AtmMask.atmNumber
             AtmMask.error AtmMask.isSubmitting].
      * repeat split; try tauto.
        rewrite <- Hfmt, validateAtmNumber_formatted_equation.
        destruct (digit_count atm =? 0); [discriminate|].
        destruct (digit_count atm <? 16); discriminate.
      * apply validateAtmNumber_falsy in Htruthy.
        repeat split; try tauto; try discriminate.
        intros v [= <-]. exact Htruthy.
  - destruct fly as [captured|].
    + unfold AtmMask.handleSubmit_settle.
      destruct thrown;
        cbn [AtmMask.form AtmMask.inFlight AtmMask.logged AtmMask.atmNumber
             AtmMask.error AtmMask.isSubmitting app].
      * repeat split; try tauto; try discriminate.
      * repeat split; try tauto; try discriminate.
        constructor; [|exact Hlog].
        pose proof (Hfly captured eq_refl) as Hacc.
        apply validateAtmNumber_accepts_iff in Hacc.
        destruct (accepted_clean_number _ Hacc) as (_ & Hd & Hl & _).
        split; assumption.
    + cbn [AtmMask.form AtmMask.inFlight AtmMask.logged AtmMask.atmNumber
           AtmMask.error AtmMask.isSubmitting]. tauto.
Qed.

Lemma page_ok_initial : page_ok AtmMask.initialPage.
Proof.
  unfold page_ok. repeat split; try discriminate; try tauto.
  constructor.
Qed.

Lemma fold_react_keeps_page_ok (events : list AtmMask.Event)
    (p : AtmMask.Page) :
  page_ok p -> page_ok (fold_left AtmMask.react events p).
Proof.
  revert p. induction events as [|ev events IH]; intros p Hp; [exact Hp|].
  simpl. apply IH. now apply react_keeps_page_ok.
Qed.

(** X15 - What holds of the hook's form after any sequence of events.
    Whatever the user types and however often the button is clicked, the
    value of the field is text the formatter leaves unchanged, the error
    shown is never the format message, [isSubmitting] is set exactly while a
    submission is in flight, a submission in flight carries a value the
    validator accepted, and every number logged is a string of exactly
    sixteen digits. *)
Theorem form_invariant (events : list AtmMask.Event) :
  let p := AtmMask.run events in
  AtmMask.formatAtmNumber (AtmMask.atmNumber (AtmMask.form p))
  = AtmMask.atmNumber (AtmMask.form p)
  /\ AtmMask.error (AtmMask.form p) <> Some AtmMask.msg_format
  /\ (AtmMask.isSubmitting (AtmMask.form p) = true
      <-> AtmMask.inFlight p <> None)
  /\ (forall v, AtmMask.inFlight p = Some v ->
                AtmMask.validateAtmNumber v = None)
  /\ Forall (fun n => digit_string n /\ length n = 16) (AtmMask.logged p).
Proof.
  cbv zeta. unfold AtmMask.run.
  destruct (fold_react_keeps_page_ok events page_ok_initial)
    as (Hfmt & Herr & _ & Hsub & Hfly & Hlog).
  auto.
Qed.

Lemma form_invariant_witness :
  AtmMask.validateAtmNumber (str "1234 - 5678 - 9012 - 3456") = None.
Proof.
  pose proof (form_invariant
                [AtmMask.InputChange (str "1234567890123456");
                 AtmMask.ClickSubmit]) as H.
  cbv zeta in H. destruct H as (_ & _ & _ & Hfly & _).
  apply Hfly. reflexivity.
Defined.

(** X16 - Typing clears the error.  After any sequence of events, a change
    of the input leaves the form without an error message, and with the
    formatted input as its value. *)
Theorem typing_clears_the_error (events : list AtmMask.Event)
    (targetValue : jsstring) :
  let p := AtmMask.run (events ++ [AtmMask.InputChange targetValue]) in
  AtmMask.error (AtmMask.form p) = None
  /\ AtmMask.atmNumber (AtmMask.form p)
     = AtmMask.formatAtmNumber targetValue.
Proof.
  cbv zeta. unfold AtmMask.run. rewrite fold_left_app. cbn [fold_left].
  destruct (fold_react_keeps_page_ok events page_ok_initial)
    as (_ & _ & Hmsg & _).
  cbn [AtmMask.react AtmMask.form].
  unfold AtmMask.handleAtmChange, AtmMask.handleAtmNumberChange. cbv zeta.
  cbn [AtmMask.error AtmMask.atmNumber]. split; [|reflexivity].
  destruct Hmsg as [-> | ->]; reflexivity.
Qed.

(** ** The password forms *)

Lemma strict_eq_iff (a b : jsstring) : strict_eq a b = true <-> a = b.
Proof.
  revert b. induction a as [|x a IH]; intros [|y b]; simpl;
    try (split; congruence).
  rewrite andb_true_iff, N.eqb_eq, IH. split.
  - intros [-> ->]. reflexivity.
  - intros [= -> ->]. split; reflexivity.
Qed.

Lemma issues_nil_iff (schema : list check) (v : jsstring) :
  issues schema v = [] <-> forallb (fun c => passes c v) schema = true.
Proof.
  unfold issues. induction schema as [|c cs IH]; simpl; [tauto|].
  destruct (passes c v); simpl; [exact IH|].
  split; discriminate.
Qed.

Lemma at_path_nil_iff (path : string) (msgs : list string) :
  PasswordForms.at_path path msgs = [] <-> msgs = [].
Proof. destruct msgs; simpl; split; congruence. Qed.

Lemma passwords_match_issue_nil_iff (data : PasswordForms.PasswordFormData) :
  PasswordForms.passwords_match_issue data = []
  <-> PasswordForms.password data = PasswordForms.confirmPassword data.
Proof.
  unfold PasswordForms.passwords_match_issue. rewrite <- strict_eq_iff.
  destruct (strict_eq (PasswordForms.password data)
                      (PasswordForms.confirmPassword data));
    split; congruence.
Qed.

Lemma app3_nil_iff (A : Type) (a b c : list A) :
  a ++ b ++ c = [] <-> a = [] /\ b = [] /\ c = [].
Proof.
  split.
  - intros H. apply app_eq_nil in H. destruct H as [-> H].
    apply app_eq_nil in H. tauto.
  - intros (-> & -> & ->). reflexivity.
Qed.

(** X17 - The checklist agrees with the schema.  In [PasswordForm] the
    schema accepts the two fields exactly when the five items of the live
    checklist that depend on the password rules are all met: at least eight
    units, an uppercase letter, a lowercase letter, a digit, and two equal,
    non-empty entries.  The sixth item, both fields filled, is then met as
    well. *)
Theorem checklist_agrees_with_schema (data : PasswordForms.PasswordFormData) :
  let checks :=
    PasswordForms.validations (PasswordForms.password data)
                              (PasswordForms.confirmPassword data) in
  (PasswordForms.createSchema data = []
   <-> PasswordForms.minLength checks = true
       /\ PasswordForms.hasUppercase checks = true
       /\ PasswordForms.hasLowercase checks = true
       /\ PasswordForms.hasNumber checks = true
       /\ PasswordForms.passwordsMatch checks = true)
  /\ (PasswordForms.createSchema data = [] ->
      PasswordForms.bothNotEmpty checks = true).
Proof.
  cbv zeta. destruct data as [p c].
  unfold PasswordForms.createSchema.
  rewrite app3_nil_iff, !at_path_nil_iff, !issues_nil_iff,
    passwords_match_issue_nil_iff.
  cbn [PasswordForms.password PasswordForms.confirmPassword
       PasswordForms.validations PasswordForms.minLength
       PasswordForms.hasUppercase PasswordForms.hasLowercase
       PasswordForms.hasNumber PasswordForms.passwordsMatch
       PasswordForms.bothNotEmpty].
  unfold PasswordForms.create_password, PasswordForms.create_confirmPassword.
  cbn [forallb passes zmin].
  rewrite !andb_true_iff, !Nat.leb_le, !Nat.ltb_lt, strict_eq_iff.
  split.
  - split.
    + intros ((H1 & H8 & Hu & Hl & Hd & _) & (Hc & _) & ->). tauto.
    + intros (H8 & Hu & Hl & Hd & -> & Hc). repeat split; auto; lia.
  - intros ((H1 & H8 & Hu & Hl & Hd & _) & (Hc & _) & ->). lia.
Qed.

Lemma checklist_agrees_with_schema_witness :
  PasswordForms.bothNotEmpty
    (PasswordForms.validations (str "Abcdef12") (str "Abcdef12")) = true.
Proof.
  pose proof (checklist_agrees_with_schema
                {| PasswordForms.password := str "Abcdef12";
                   PasswordForms.confirmPassword := str "Abcdef12" |}) as H.
  cbv zeta in H. destruct H as [_ Hboth].
  apply Hboth. reflexivity.
Defined.

(** X18 - The two password schemas compared.  The schema of
    [PasswordValidationForm] accepts the two fields exactly when the schema
    of [PasswordForm] accepts them and the password holds a unit that is
    neither an ASCII letter nor a digit. *)
Theorem validation_schema_is_stricter (data : PasswordForms.PasswordFormData) :
  PasswordForms.validationSchema data = []
  <-> PasswordForms.createSchema data = []
      /\ test_class is_special (PasswordForms.password data) = true.
Proof.
  destruct data as [p c].
  unfold PasswordForms.validationSchema, PasswordForms.createSchema.
  rewrite !app3_nil_iff, !at_path_nil_iff, !issues_nil_iff,
    !passwords_match_issue_nil_iff.
  cbn [PasswordForms.password PasswordForms.confirmPassword].
  unfold PasswordForms.validation_password, PasswordForms.create_password,
    PasswordForms.create_confirmPassword.
  cbn [forallb passes zmin].
  rewrite !andb_true_iff, !Nat.leb_le.
  split.
  - intros ((H8 & Hu & Hl & Hd & Hs & _) & _ & <-).
    repeat split; auto; lia.
  - intros (((H1 & H8 & Hu & Hl & Hd & _) & (Hc & _) & <-) & Hs).
    repeat split; auto.
Qed.
